(** * Revolut converter: a shallow embedding of [revolutConverter.ts]

    The converter turns the rows of a Revolut export (invest or crypto
    layout) into Ghostfolio activities.  The CSV tokenizer, the security
    lookup service, the progress bar, the clock and the process environment
    are collaborators of the converter; they appear here as parameters.
    Everything the converter itself computes is defined below, function by
    function, under the names of the source. *)

From Stdlib Require Import List Bool Arith NArith ZArith QArith Qabs Lia.
From Stdlib Require Import String Ascii Sorted.
Import ListNotations.

Close Scope Q_scope.
Local Open Scope list_scope.

(** ** JavaScript strings

    A JavaScript string is a sequence of UTF-16 code units. *)

Definition jsstring : Type := list N.

(** A source literal written with Basic Latin characters. *)
Definition lit (s : string) : jsstring :=
  map N_of_ascii (list_ascii_of_string s).

Definition EURO_SIGN : jsstring := [8364%N].
Definition POUND_SIGN : jsstring := [163%N].

(** [a === b] on strings. *)
Fixpoint str_eqb (a b : jsstring) : bool :=
  match a, b with
  | [], [] => true
  | c :: a', d :: b' => N.eqb c d && str_eqb a' b'
  | _, _ => false
  end.

(** [s.startsWith(t)], the test [indexOf] performs at each position. *)
Fixpoint startsWith (s t : jsstring) {struct t} : bool :=
  match t, s with
  | [], _ => true
  | _ :: _, [] => false
  | d :: t', c :: s' => N.eqb c d && startsWith s' t'
  end.

Fixpoint indexOf_from (s t : jsstring) (i : Z) : Z :=
  if startsWith s t then i
  else match s with
       | [] => (-1)%Z
       | _ :: s' => indexOf_from s' t (i + 1)%Z
       end.

(** [s.indexOf(t)]: the first position at which [t] occurs in [s], -1 when
    there is none. *)
Definition indexOf (s t : jsstring) : Z := indexOf_from s t 0%Z.

(** WhiteSpace and LineTerminator code units (ECMAScript, TrimString). *)
Definition isWhiteSpace (c : N) : bool :=
  existsb (N.eqb c)
    [9; 10; 11; 12; 13; 32; 160; 5760; 8192; 8193; 8194; 8195; 8196; 8197;
     8198; 8199; 8200; 8201; 8202; 8232; 8233; 8239; 8287; 12288; 65279]%N.

Fixpoint trimStart (s : jsstring) : jsstring :=
  match s with
  | [] => []
  | c :: s' => if isWhiteSpace c then trimStart s' else s
  end.

Definition trimEnd (s : jsstring) : jsstring := rev (trimStart (rev s)).

(** [s.trim()]. *)
Definition trim (s : jsstring) : jsstring := trimEnd (trimStart s).

Definition isDigit (c : N) : bool := (48 <=? c)%N && (c <=? 57)%N.

(** The character class [[\d.,]]. *)
Definition isNumericChar (c : N) : bool :=
  isDigit c || N.eqb c 46 || N.eqb c 44.

(** The matches of [/([\d.,]+)/g] scanning [s] from the left; [cur] holds the
    match in progress, most recent code unit first. *)
Fixpoint numericRuns (s cur : jsstring) : list jsstring :=
  match s with
  | [] => match cur with [] => [] | _ :: _ => [rev cur] end
  | c :: s' =>
      if isNumericChar c then numericRuns s' (c :: cur)
      else match cur with
           | [] => numericRuns s' []
           | _ :: _ => rev cur :: numericRuns s' []
           end
  end.

(** [s.match(/([\d.,]+)/g)]: the list of matches, [None] (null) when there is
    no match. *)
Definition match_numeric (s : jsstring) : option (list jsstring) :=
  match numericRuns s [] with
  | [] => None
  | m :: ms => Some (m :: ms)
  end.

(** [s.replace(/([\d.,]+)/g, "")]: scanning from the left, every match (a
    maximal run of the class) is replaced by the empty string and any other
    code unit is kept. *)
Fixpoint replace_numeric (s : jsstring) : jsstring :=
  match s with
  | [] => []
  | c :: s' =>
      if isNumericChar c then replace_numeric s'
      else c :: replace_numeric s'
  end.

(** [s.replace(/[$]/g, '')]. *)
Definition replace_dollars (s : jsstring) : jsstring :=
  filter (fun c => negb (N.eqb c 36)) s.

(** [s.replace(",", "")]: a string pattern replaces its first occurrence
    only. *)
Fixpoint replace_first_comma (s : jsstring) : jsstring :=
  match s with
  | [] => []
  | c :: s' => if N.eqb c 44 then s' else c :: replace_first_comma s'
  end.

(** [s.split(sep)] for a separator of one code unit: the fields between
    the occurrences of [sep]; the empty string has one, empty, field. *)
Fixpoint split (sep : N) (s : jsstring) : list jsstring :=
  match s with
  | [] => [[]]
  | c :: s' =>
      if N.eqb c sep then [] :: split sep s'
      else match split sep s' with
           | [] => [[c]]
           | field :: fields => (c :: field) :: fields
           end
  end.

(** ** JavaScript numbers

    A finite Number is represented by the exact decimal value that was read
    or written; the binary64 value is its rounding, a function of that
    value, which nothing below computes with.  Rationals are kept reduced, so
    that equal values are equal terms.  A value whose rounding is no finite
    Number is not [Finite]: reading it gives [Infinity] (see [overflows]).
    The sign of a zero is not kept. *)

Inductive number : Type :=
| NaN
| Infinity (negative : bool)
| Finite (q : Q).

Definition num (z : Z) : number := Finite (inject_Z z).

(** [Math.abs]. *)
Definition Math_abs (x : number) : number :=
  match x with
  | NaN => NaN
  | Infinity _ => Infinity false
  | Finite q => Finite (Qabs q)
  end.

(** ToNumber of a property that may be [undefined]. *)
Definition ToNumber (x : option number) : number :=
  match x with
  | None => NaN
  | Some n => n
  end.

(** The longest prefix of decimal digits, and what follows it. *)
Fixpoint spanDigits (s : jsstring) : list N * jsstring :=
  match s with
  | [] => ([], [])
  | c :: s' =>
      if isDigit c
      then let (ds, r) := spanDigits s' in ((c - 48)%N :: ds, r)
      else ([], s)
  end.

Definition digitsValue (ds : list N) : Z :=
  fold_left (fun acc d => (10 * acc + Z.of_N d)%Z) ds 0%Z.

(** ExponentPart: [e] or [E], an optional sign, at least one digit.  When
    the part is not well formed, it does not belong to the literal. *)
Definition exponentPart (s : jsstring) : Z :=
  match s with
  | c :: s' =>
      if N.eqb c 101 || N.eqb c 69 then
        match s' with
        | sg :: s'' =>
            if N.eqb sg 43 then
              match spanDigits s'' with
              | ([], _) => 0%Z
              | (ds, _) => digitsValue ds
              end
            else if N.eqb sg 45 then
              match spanDigits s'' with
              | ([], _) => 0%Z
              | (ds, _) => (- digitsValue ds)%Z
              end
            else
              match spanDigits s' with
              | ([], _) => 0%Z
              | (ds, _) => digitsValue ds
              end
        | [] => 0%Z
        end
      else 0%Z
  | [] => 0%Z
  end.

(** The value [m * 10^e], reduced. *)
Definition decimal (m e : Z) : Q :=
  if (0 <=? e)%Z then inject_Z (m * 10 ^ e)
  else Qred (Qmake m (Z.to_pos (10 ^ (- e)))).

(** StrUnsignedDecimalLiteral: [Infinity], or digits with an optional
    fraction and exponent, or a fraction with an optional exponent.  The
    longest prefix that is one is read; [None] when no prefix is. *)
Definition unsignedLiteral (s : jsstring) : option (option Q) :=
  if startsWith s (lit "Infinity") then Some None
  else
    let (ip, r) := spanDigits s in
    match r with
    | c :: r' =>
        if N.eqb c 46 then
          let (fp, r'') := spanDigits r' in
          match ip, fp with
          | [], [] => None
          | _, _ =>
              Some (Some (decimal (digitsValue (ip ++ fp))
                                  (exponentPart r'' - Z.of_nat (List.length fp))))
          end
        else
          match ip with
          | [] => None
          | _ :: _ => Some (Some (decimal (digitsValue ip) (exponentPart r)))
          end
    | [] =>
        match ip with
        | [] => None
        | _ :: _ => Some (Some (decimal (digitsValue ip) 0))
        end
    end.

(** The least magnitude that rounds to no finite binary64 value: half way
    between the largest one, 2^1024 - 2^971, and 2^1024, where the tie goes
    to 2^1024. *)
Definition OVERFLOW : Z := Eval vm_compute in (2 ^ 1024 - 2 ^ 970)%Z.

Definition overflows (q : Q) : bool := Qle_bool (inject_Z OVERFLOW) q.

(** [parseFloat(s)]: leading white space is skipped, then the longest prefix
    that is a StrDecimalLiteral is read; NaN when there is none, an infinity
    when the value read is too large for a finite Number. *)
Definition parseFloat (s : jsstring) : number :=
  let t := trimStart s in
  let signed (neg : bool) (u : jsstring) :=
    match unsignedLiteral u with
    | None => NaN
    | Some None => Infinity neg
    | Some (Some q) =>
        if overflows q then Infinity neg
        else Finite (if neg then Qopp q else q)
    end in
  match t with
  | c :: t' =>
      if N.eqb c 43 then signed false t'
      else if N.eqb c 45 then signed true t'
      else signed false t
  | [] => NaN
  end.

(** ** Case conversion

    [toLocaleLowerCase] and [toLocaleUpperCase] follow the Unicode case
    mappings of the host's locale, which are not maps of single code units
    (a letter may become two, and the mapping of a letter may depend on its
    neighbours).  The converter is verified against any pair of functions
    that agrees with the root locale on the code units the converter's own
    literals are made of: Basic Latin, and the pound and euro signs, which
    have no case.  The Turkic and Lithuanian tailorings, which map the
    Basic Latin letters I and i differently, are outside these laws. *)

Definition asciiLower (c : N) : N :=
  if (65 <=? c)%N && (c <=? 90)%N then (c + 32)%N else c.

Definition asciiUpper (c : N) : N :=
  if (97 <=? c)%N && (c <=? 122)%N then (c - 32)%N else c.

Definition isBasicLatin (c : N) : bool := (c <? 128)%N.

Definition isPlain (c : N) : bool :=
  isBasicLatin c || N.eqb c 163 || N.eqb c 8364.

Class Locale : Type := {
  toLocaleLowerCase : jsstring -> jsstring;
  toLocaleUpperCase : jsstring -> jsstring;
  lower_basic_latin :
    forall s, forallb isBasicLatin s = true ->
              toLocaleLowerCase s = map asciiLower s;
  upper_plain :
    forall s, forallb isPlain s = true ->
              toLocaleUpperCase s = map asciiUpper s
}.

(** The root locale restricted to Basic Latin: every other code unit is
    left as it is. *)
#[export] Instance BasicLatinLocale : Locale := {|
  toLocaleLowerCase := map asciiLower;
  toLocaleUpperCase := map asciiUpper;
  lower_basic_latin := fun s _ => eq_refl;
  upper_plain := fun s _ => eq_refl
|}.

(** Case conversion of a literal, by the laws of the locale. *)
Ltac lower_literals :=
  repeat match goal with
         | |- context [toLocaleLowerCase ?s] =>
             rewrite (lower_basic_latin s eq_refl)
         end.

Ltac upper_literals :=
  repeat match goal with
         | |- context [toLocaleUpperCase ?s] =>
             rewrite (upper_plain s eq_refl)
         end.

(** ** Data model *)

(** A thrown or reported error, with its message. *)
Record Error : Type := { message : jsstring }.

(** The outcome of an evaluation that may throw. *)
Inductive completion (A : Type) : Type :=
| Normal (a : A)
| Throw (e : Error).
Arguments Normal {A} a.
Arguments Throw {A} e.

(** Reading property [0] of [null], or calling a method of [undefined]. *)
Definition TypeError : Error :=
  {| message := lit "Cannot read properties of null (reading '0')" |}.

(** A crypto row as the tokenizer hands it to [on_record]: every column is
    the text of its cell. *)
Module CryptoRow.
Record t : Type := {
  date : jsstring;
  type : jsstring;
  symbol : jsstring;
  quantity : jsstring;
  price : jsstring;
  value : jsstring;
  fees : jsstring
}.
End CryptoRow.

(** Modelled from the spec: the declaration of RevolutRecord
    (models/revolutRecord.ts), the row after coercion.  The invest layout
    has date, type, ticker, symbol, quantity, pricePerShare, totalAmount and
    currency; the crypto layout has date, type, symbol, quantity, price,
    value, fees, and its currency is set by [on_record].  A column that a
    layout does not have is [undefined] ([None]). *)
Module RevolutRecord.
Record t : Type := {
  date : jsstring;
  type : jsstring;
  ticker : option jsstring;
  symbol : jsstring;
  quantity : option number;
  pricePerShare : option number;
  totalAmount : option number;
  currency : jsstring;
  price : option number;
  value : option number;
  fees : option number
}.
End RevolutRecord.

(** Modelled from the spec: GhostfolioOrderType
    (models/ghostfolioOrderType.ts), the enumeration of the action kinds
    buy, sell, dividend and fee. *)
Inductive GhostfolioOrderType : Type := buy | sell | dividend | fee.

(** [GhostfolioOrderType[key]]: [undefined] when [key] names no member. *)
Definition GhostfolioOrderType_at (key : jsstring) : option GhostfolioOrderType :=
  if str_eqb key (lit "buy") then Some buy
  else if str_eqb key (lit "sell") then Some sell
  else if str_eqb key (lit "dividend") then Some dividend
  else if str_eqb key (lit "fee") then Some fee
  else None.

(** What the converter reads of a lookup result. *)
Module YahooFinanceRecord.
Record t : Type := { symbol : jsstring }.
End YahooFinanceRecord.

Module Activity.
Record t : Type := {
  accountId : option jsstring;
  comment : jsstring;
  fee : number;
  quantity : option number;
  type : option GhostfolioOrderType;
  unitPrice : option number;
  currency : jsstring;
  dataSource : jsstring;
  date : jsstring;
  symbol : jsstring
}.
End Activity.

Record Meta : Type := { meta_date : jsstring; version : jsstring }.

Record GhostfolioExport : Type := {
  meta : Meta;
  activities : list Activity.t
}.

(** What a lookup does: it resolves to a security or to nothing, or it
    rejects. *)
Inductive LookupOutcome : Type :=
| Resolved (security : option YahooFinanceRecord.t)
| Rejected (err : Error).

(** The calls the converter makes on its collaborators, in the order it
    makes them. *)
Inductive event : Type :=
| ConsoleLog (msg : jsstring)
| ProgressCreate (total : nat)
| BarIncrement
| GetSecurity (key currency : jsstring) (outcome : LookupOutcome)
| LogQueryError (ticker : option jsstring) (line : nat)
| ProgressLog (msg : jsstring)
| ProgressStop
| SuccessCallback (result : GhostfolioExport)
| ErrorCallback (err : Error).

(** A cell after [cast]: the text, or a number. *)
Inductive cell : Type :=
| CString (s : jsstring)
| CNumber (n : number).

(** [a ?? b]. *)
Definition nullish {A : Type} (a : option A) (b : A) : A :=
  match a with
  | Some x => x
  | None => b
  end.

(** Modelled from the spec: the invest layout, whose columns
    [processHeaders] of AbstractConverter reads off the header line: date,
    type, ticker, symbol, quantity, pricePerShare, totalAmount and currency.
    A row is the text of its cells, before [cast]. *)
Module InvestRow.
Record t : Type := {
  date : jsstring;
  type : jsstring;
  ticker : jsstring;
  symbol : jsstring;
  quantity : jsstring;
  pricePerShare : jsstring;
  totalAmount : jsstring;
  currency : jsstring
}.
End InvestRow.

(** ** Properties of the string primitives *)

Lemma str_eqb_eq (a b : jsstring) : str_eqb a b = true <-> a = b.
Proof.
  revert b; induction a as [|c a IH]; intros [|d b]; simpl;
    try (split; [discriminate | discriminate]); try tauto.
  rewrite andb_true_iff, N.eqb_eq, IH.
  split; [intros [-> ->]; reflexivity | intros H; injection H; auto].
Qed.

Lemma str_eqb_refl (a : jsstring) : str_eqb a a = true.
Proof. apply str_eqb_eq; reflexivity. Qed.

Lemma str_eqb_neq (a b : jsstring) : str_eqb a b = false <-> a <> b.
Proof.
  rewrite <- str_eqb_eq. destruct (str_eqb a b); split; congruence.
Qed.

(** [t] occurs in [s]. *)
Definition occursIn (t s : jsstring) : Prop :=
  exists pre post, s = pre ++ t ++ post.

Lemma startsWith_prefix (s t : jsstring) :
  startsWith s t = true <-> exists post, s = t ++ post.
Proof.
  revert s; induction t as [|d t IH]; intros s; simpl.
  - split; [intros _; exists s; reflexivity | reflexivity].
  - destruct s as [|c s].
    + split; [discriminate | intros [post H]; discriminate].
    + rewrite andb_true_iff, N.eqb_eq, IH. split.
      * intros [-> [post ->]]. exists post; reflexivity.
      * intros [post H]. injection H as -> ->. split; [reflexivity | now exists post].
Qed.

Lemma indexOf_from_range (s t : jsstring) (i : Z) :
  indexOf_from s t i = (-1)%Z \/ (i <= indexOf_from s t i)%Z.
Proof.
  revert i; induction s as [|c s IH]; intros i; simpl.
  - destruct (startsWith [] t); [right; lia | left; reflexivity].
  - destruct (startsWith (c :: s) t); [right; lia |].
    destruct (IH (i + 1)%Z); [left; assumption | right; lia].
Qed.

Lemma indexOf_from_occurs (s t : jsstring) (i : Z) :
  (0 <= i)%Z ->
  (indexOf_from s t i >? -1)%Z = true <-> occursIn t s.
Proof.
  revert i; induction s as [|c s IH]; intros i Hi; simpl.
  - destruct (startsWith [] t) eqn:E.
    + split; [intros _ | intros _; apply Z.gtb_lt; lia].
      apply startsWith_prefix in E as [post E]. exists [], post. exact E.
    + split; [discriminate |].
      intros [pre [post H]]. destruct pre; simpl in H.
      * assert (startsWith [] t = true) by (apply startsWith_prefix; now exists post).
        congruence.
      * discriminate.
  - destruct (startsWith (c :: s) t) eqn:E.
    + split; [intros _ | intros _; apply Z.gtb_lt; lia].
      apply startsWith_prefix in E as [post E]. exists [], post. exact E.
    + rewrite (IH (i + 1)%Z) by lia. split.
      * intros [pre [post ->]]. exists (c :: pre), post. reflexivity.
      * intros [pre [post H]]. destruct pre as [|c' pre]; simpl in H.
        -- assert (startsWith (c :: s) t = true)
             by (apply startsWith_prefix; now exists post).
           congruence.
        -- injection H as _ ->. now exists pre, post.
Qed.

(** The test [s.indexOf(t) > -1] decides whether [t] occurs in [s]. *)
Lemma indexOf_occurs (s t : jsstring) :
  (indexOf s t >? -1)%Z = true <-> occursIn t s.
Proof. apply indexOf_from_occurs; lia. Qed.

Lemma indexOf_absent (s t : jsstring) :
  (indexOf s t >? -1)%Z = false <-> ~ occursIn t s.
Proof.
  rewrite <- indexOf_occurs. destruct (indexOf s t >? -1)%Z; split; congruence.
Qed.

(** Replacing every match of [/([\d.,]+)/g] by the empty string leaves the
    code units outside the class, in their order. *)
Lemma replace_numeric_filter (s : jsstring) :
  replace_numeric s = filter (fun c => negb (isNumericChar c)) s.
Proof.
  induction s as [|c s IH]; simpl; [reflexivity |].
  destruct (isNumericChar c); simpl; congruence.
Qed.

(** There is a match of [/([\d.,]+)/g] exactly when some code unit is in the
    class. *)
Lemma numericRuns_nil (s cur : jsstring) :
  numericRuns s cur = [] <-> cur = [] /\ forallb (fun c => negb (isNumericChar c)) s = true.
Proof.
  revert cur; induction s as [|c s IH]; intros cur; simpl.
  - destruct cur; split; try tauto; try discriminate. intros [H _]; discriminate.
  - destruct (isNumericChar c) eqn:E; simpl.
    + rewrite IH. split; [intros [H _]; discriminate | intros [_ H]; discriminate].
    + destruct cur; [apply IH |].
      split; [discriminate | intros [H _]; discriminate].
Qed.

Lemma match_numeric_null (s : jsstring) :
  match_numeric s = None <-> forallb (fun c => negb (isNumericChar c)) s = true.
Proof.
  unfold match_numeric. destruct (numericRuns s []) eqn:E.
  - apply numericRuns_nil in E. tauto.
  - split; [discriminate |]. intros H.
    assert (numericRuns s [] = []) by (apply numericRuns_nil; tauto). congruence.
Qed.

Lemma match_numeric_some (s : jsstring) :
  existsb isNumericChar s = true ->
  exists first others, match_numeric s = Some (first :: others).
Proof.
  intros H. unfold match_numeric. destruct (numericRuns s []) eqn:E.
  - apply numericRuns_nil in E as [_ E].
    apply existsb_exists in H as [c [Hin Hc]].
    rewrite forallb_forall in E. specialize (E c Hin). rewrite Hc in E; discriminate.
  - eauto.
Qed.

(** The text before the first occurrence of [sep]. *)
Fixpoint before (sep : N) (s : jsstring) : jsstring :=
  match s with
  | [] => []
  | c :: s' => if N.eqb c sep then [] else c :: before sep s'
  end.

(** How many code units of [s] are [c]. *)
Definition occurrences (c : N) (s : jsstring) : nat :=
  List.length (filter (N.eqb c) s).

Lemma split_first (sep : N) (s : jsstring) :
  hd [] (split sep s) = before sep s.
Proof.
  induction s as [|c s IH]; simpl; [reflexivity |].
  destruct (N.eqb c sep); [reflexivity |].
  destruct (split sep s); simpl in *; congruence.
Qed.

Lemma split_length (sep : N) (s : jsstring) :
  List.length (split sep s) = S (occurrences sep s).
Proof.
  unfold occurrences. induction s as [|c s IH]; simpl; [reflexivity |].
  rewrite (N.eqb_sym sep c). destruct (N.eqb c sep); simpl.
  - now rewrite IH.
  - destruct (split sep s); simpl in *; [discriminate | exact IH].
Qed.

(** ** Counting the calls of a run *)

Definition isErrorCallback (e : event) : bool :=
  match e with ErrorCallback _ => true | _ => false end.

Definition isSuccessCallback (e : event) : bool :=
  match e with SuccessCallback _ => true | _ => false end.

Definition isRejectedLookup (e : event) : bool :=
  match e with GetSecurity _ _ (Rejected _) => true | _ => false end.

Definition isBarIncrement (e : event) : bool :=
  match e with BarIncrement => true | _ => false end.

(** How many of [calls] satisfy [p]. *)
Definition count (p : event -> bool) (calls : list event) : nat :=
  List.length (filter p calls).

(** Calls among which there is no callback and no rejected lookup. *)
Definition quiet (calls : list event) : bool :=
  forallb (fun e => negb (isErrorCallback e || isSuccessCallback e
                          || isRejectedLookup e)) calls.

Lemma count_app (p : event -> bool) (a b : list event) :
  count p (a ++ b) = count p a + count p b.
Proof. unfold count. now rewrite filter_app, length_app. Qed.

Lemma quiet_app (a b : list event) : quiet (a ++ b) = quiet a && quiet b.
Proof. apply forallb_app. Qed.

Lemma quiet_count (calls : list event) :
  quiet calls = true ->
  count isErrorCallback calls = 0 /\ count isSuccessCallback calls = 0
  /\ count isRejectedLookup calls = 0.
Proof.
  unfold quiet, count. induction calls as [|e calls IH]; simpl; [auto |].
  rewrite andb_true_iff, negb_true_iff, !orb_false_iff.
  intros [[[-> ->] ->] H]. auto.
Qed.

Lemma quiet_no_rejected (calls : list event) (e : event) :
  quiet calls = true -> In e calls -> isRejectedLookup e = false.
Proof.
  unfold quiet. rewrite forallb_forall. intros H Hin.
  specialize (H e Hin). rewrite negb_true_iff, !orb_false_iff in H. tauto.
Qed.

(** ** Increasing lists of indexes *)

Lemma sorted_map_S (rows : list nat) :
  StronglySorted lt rows -> StronglySorted lt (map S rows).
Proof.
  induction 1 as [|k rows Hs IH Hk]; simpl; constructor; auto.
  rewrite Forall_map. revert Hk. apply Forall_impl. intros; lia.
Qed.

Lemma sorted_nth (rows : list nat) :
  StronglySorted lt rows ->
  forall i j ri rj,
    nth_error rows i = Some ri -> nth_error rows j = Some rj ->
    i < j -> ri < rj.
Proof.
  induction 1 as [|k rows Hs IH Hk]; intros i j ri rj Hi Hj Hlt.
  - destruct i; discriminate.
  - destruct j as [|j]; [lia |]. simpl in Hj.
    destruct i as [|i]; simpl in Hi.
    + injection Hi as <-. rewrite Forall_forall in Hk.
      apply Hk. eapply nth_error_In; eassumption.
    + apply (IH i j); auto. lia.
Qed.

(** ** What [parseFloat] reads off a numeric token *)

Lemma numeric_not_whiteSpace (c : N) :
  isNumericChar c = true -> isWhiteSpace c = false.
Proof.
  unfold isNumericChar, isDigit, isWhiteSpace. intros H.
  apply not_true_is_false. intros W.
  apply existsb_exists in W as [w [Hin Hw]]. apply N.eqb_eq in Hw. subst w.
  rewrite !orb_true_iff, andb_true_iff, !N.eqb_eq, !N.leb_le in H.
  simpl in Hin.
  repeat (destruct Hin as [<- | Hin]; [lia |]). exact Hin.
Qed.

Lemma digitsValue_from (ds : list N) (acc : Z) :
  (0 <= acc)%Z ->
  (0 <= fold_left (fun a d => (10 * a + Z.of_N d)%Z) ds acc)%Z.
Proof.
  revert acc; induction ds as [|d ds IH]; intros acc H; cbn [fold_left];
    [exact H |].
  apply IH. lia.
Qed.

Lemma digitsValue_nonneg (ds : list N) : (0 <= digitsValue ds)%Z.
Proof. apply digitsValue_from. lia. Qed.

Lemma decimal_nonneg (m e : Z) : (0 <= m)%Z -> (0 <= decimal m e)%Q.
Proof.
  intros H. unfold decimal. destruct (0 <=? e)%Z eqn:E.
  - apply Z.leb_le in E. unfold Qle; simpl.
    assert (0 <= 10 ^ e)%Z by (apply Z.pow_nonneg; lia). nia.
  - rewrite Qred_correct. unfold Qle; simpl. lia.
Qed.

(** An unsigned literal never reads a negative value. *)
Lemma unsignedLiteral_nonneg (s : jsstring) (q : Q) :
  unsignedLiteral s = Some (Some q) -> (0 <= q)%Q.
Proof.
  unfold unsignedLiteral.
  destruct (startsWith s (lit "Infinity")); [discriminate |].
  destruct (spanDigits s) as [ip r].
  destruct r as [|c r'].
  - destruct ip; [discriminate |]. intros H; injection H as <-.
    apply decimal_nonneg, digitsValue_nonneg.
  - destruct (N.eqb c 46).
    + destruct (spanDigits r') as [fp r''].
      destruct ip, fp; try discriminate; intros H; injection H as <-;
        apply decimal_nonneg, digitsValue_nonneg.
    + destruct ip; [discriminate |]. intros H; injection H as <-.
      apply decimal_nonneg, digitsValue_nonneg.
Qed.

(** A text made of digits, dots and commas parses to NaN, to the positive
    infinity or to a value that is not negative. *)
Lemma parseFloat_numeric (s : jsstring) :
  forallb isNumericChar s = true ->
  parseFloat s = NaN \/ parseFloat s = Infinity false
  \/ exists q, parseFloat s = Finite q /\ (0 <= q)%Q.
Proof.
  intros H. unfold parseFloat.
  destruct s as [|c s]; [left; reflexivity |].
  simpl in H. apply andb_true_iff in H as [Hc _].
  simpl trimStart. rewrite (numeric_not_whiteSpace c Hc).
  assert (Hplus : N.eqb c 43 = false /\ N.eqb c 45 = false /\ N.eqb c 73 = false).
  { unfold isNumericChar, isDigit in Hc.
    rewrite !orb_true_iff, andb_true_iff, !N.eqb_eq, !N.leb_le in Hc.
    repeat split; apply N.eqb_neq; lia. }
  destruct Hplus as [-> [-> HI]].
  destruct (unsignedLiteral (c :: s)) as [[q|]|] eqn:E.
  - destruct (overflows q); [right; left; reflexivity |].
    right; right. exists q. split; [reflexivity |].
    now apply (unsignedLiteral_nonneg (c :: s)).
  - exfalso. unfold unsignedLiteral in E.
    change (startsWith (c :: s) (lit "Infinity"))
      with (N.eqb c 73 && startsWith s (lit "nfinity")) in E.
    rewrite HI in E. simpl andb in E. cbv iota in E.
    destruct (spanDigits (c :: s)) as [ip r].
    destruct r as [|c' r'].
    + destruct ip; discriminate.
    + destruct (N.eqb c' 46).
      * destruct (spanDigits r') as [fp r'']. destruct ip, fp; discriminate.
      * destruct ip; discriminate.
  - left; reflexivity.
Qed.

Lemma replace_first_comma_numeric (s : jsstring) :
  forallb isNumericChar s = true ->
  forallb isNumericChar (replace_first_comma s) = true.
Proof.
  induction s as [|c s IH]; simpl; [reflexivity |].
  rewrite andb_true_iff. intros [Hc Hs].
  destruct (N.eqb c 44); [exact Hs |]. simpl. now rewrite Hc, IH.
Qed.

Lemma forallb_reverse (p : N -> bool) (s : jsstring) :
  forallb p (rev s) = forallb p s.
Proof.
  induction s as [|c s IH]; simpl; [reflexivity |].
  rewrite forallb_app, IH. simpl. rewrite andb_true_r. apply andb_comm.
Qed.

(** Every match of [/([\d.,]+)/g] is made of digits, dots and commas. *)
Lemma numericRuns_numeric (s : jsstring) :
  forall cur,
    forallb isNumericChar cur = true ->
    Forall (fun m => forallb isNumericChar m = true) (numericRuns s cur).
Proof.
  induction s as [|c s IH]; intros cur Hcur; simpl.
  - destruct cur; constructor; [| constructor].
    rewrite forallb_reverse. exact Hcur.
  - destruct (isNumericChar c) eqn:Ec.
    + apply IH. simpl. now rewrite Ec.
    + destruct cur as [|d cur]; [now apply IH |].
      constructor; [rewrite forallb_reverse; exact Hcur | now apply IH].
Qed.

Lemma match_numeric_numeric (s first : jsstring) (others : list jsstring) :
  match_numeric s = Some (first :: others) ->
  forallb isNumericChar first = true.
Proof.
  unfold match_numeric. intros H.
  pose proof (numericRuns_numeric s [] eq_refl) as Hall.
  destruct (numericRuns s []) as [|m ms]; [discriminate |].
  injection H as -> ->. now inversion Hall.
Qed.

(** ** White space and [trim] *)

Lemma trimStart_whiteSpace (s : jsstring) :
  forallb isWhiteSpace s = true -> trimStart s = [].
Proof.
  induction s as [|c s IH]; simpl; [reflexivity |].
  rewrite andb_true_iff. intros [-> Hs]. now apply IH.
Qed.

Lemma trim_whiteSpace (s : jsstring) :
  forallb isWhiteSpace s = true -> trim s = [].
Proof.
  intros H. unfold trim, trimEnd. now rewrite (trimStart_whiteSpace s H).
Qed.

(** Readings of [parseFloat] and [match]. *)

Example parseFloat_plain : parseFloat (lit "12.50") = Finite (25 # 2).
Proof. reflexivity. Qed.

Example parseFloat_stops_at_comma : parseFloat (lit "1,234.5") = num 1.
Proof. reflexivity. Qed.

Example parseFloat_exponent : parseFloat (lit " -1.5e2x") = Finite (-150 # 1).
Proof. reflexivity. Qed.

Example parseFloat_fraction_only : parseFloat (lit ".5") = Finite (1 # 2).
Proof. reflexivity. Qed.

Example parseFloat_no_literal : parseFloat (lit "abc") = NaN.
Proof. reflexivity. Qed.

Example match_numeric_runs :
  match_numeric (lit "$1,234.5 and 7") = Some [lit "1,234.5"; lit "7"].
Proof. reflexivity. Qed.

(** ** The converter *)

Section RevolutConverter.

Set Default Proof Using "Type".

Context {L : Locale}.

(** The two layouts of a Revolut export. *)
Inductive layout : Type := Crypto | Invest.

(** [processFileContents]: which of [processCryptoFileContents] and
    [processInvestFileContents] it hands the input to. *)
Definition processFileContents (input : jsstring) : layout :=
  if List.length (split 44 (hd [] (split 10 input))) =? 7
  then Crypto else Invest.

Definition ignoredRecordTypes : list jsstring :=
  [lit "transfer from"; lit "withdrawal"; lit "top-up"; lit "stake";
   lit "send"; lit "receive"].

(** [isIgnoredRecord]: some ignored word occurs in the lowered type of the
    record. *)
Definition isIgnoredRecord (record : RevolutRecord.t) : bool :=
  existsb
    (fun t => (indexOf (toLocaleLowerCase (RevolutRecord.type record)) t >? -1)%Z)
    ignoredRecordTypes.

(** The [cast] callback of [processInvestFileContents], applied by the
    tokenizer to every cell with the name of the cell's column. *)
Definition cast (columnValue column : jsstring) : cell :=
  if str_eqb column (lit "currency") && str_eqb columnValue (lit "GBX")
  then CString (lit "GBp")
  else
    let numbers :=
      if str_eqb column (lit "quantity")
         || str_eqb column (lit "pricePerShare")
         || str_eqb column (lit "totalAmount")
      then
        if str_eqb columnValue []
        then CNumber (num 0)
        else CNumber (parseFloat (trim (replace_dollars columnValue)))
      else CString columnValue in
    if str_eqb column (lit "type") then
      let action := toLocaleLowerCase columnValue in
      if (indexOf action (lit "buy") >? -1)%Z
         || (indexOf action (lit "stock split") >? -1)%Z
      then CString (lit "buy")
      else if (indexOf action (lit "sell") >? -1)%Z then CString (lit "sell")
      else if (indexOf action (lit "dividend") >? -1)%Z
      then CString (lit "dividend")
      else if (indexOf action (lit "fee") >? -1)%Z then CString (lit "fee")
      else numbers
    else numbers.

(** [detectCurrency]. *)
Definition detectCurrency (value : jsstring) : jsstring :=
  let currency := trim (replace_numeric value) in
  let upper := toLocaleUpperCase currency in
  if str_eqb upper EURO_SIGN then lit "EUR"
  else if str_eqb upper (lit "$") then lit "USD"
  else if str_eqb upper POUND_SIGN then lit "GBP"
  else if str_eqb upper (lit "SEK") then lit "SEK"
  else lit "EUR".

(** [amount[0].replace(",", "")] parsed, where [amount] is the result of a
    [match]: reading [0] of [null] throws. *)
Definition parseAmount (amount : option (list jsstring)) : completion number :=
  match amount with
  | None => Throw TypeError
  | Some [] => Throw TypeError
  | Some (first :: _) => Normal (parseFloat (replace_first_comma first))
  end.

(** [field !== "" ? parseFloat(amount[0].replace(",", "")) : 0]. *)
Definition amountOrZero (field : jsstring) (amount : option (list jsstring))
    : completion number :=
  if negb (str_eqb field []) then parseAmount amount else Normal (num 0).

(** The [on_record] callback of [processCryptoFileContents]. *)
Definition on_record (record : CryptoRow.t) : completion RevolutRecord.t :=
  let recordType := toLocaleLowerCase (CryptoRow.type record) in
  let type :=
    if str_eqb recordType (lit "buy") then lit "buy"
    else if str_eqb recordType (lit "sell") then lit "sell"
    else lit "dividend" in
  let currency := detectCurrency (CryptoRow.price record) in
  let priceAmount :=
    Some (nullish (match_numeric (CryptoRow.price record)) [lit "0"]) in
  match amountOrZero (CryptoRow.price record) priceAmount with
  | Throw e => Throw e
  | Normal price =>
      let valueAmount := match_numeric (CryptoRow.value record) in
      match amountOrZero (CryptoRow.value record) valueAmount with
      | Throw e => Throw e
      | Normal value =>
          let feesAmount := match_numeric (CryptoRow.fees record) in
          match amountOrZero (CryptoRow.fees record) feesAmount with
          | Throw e => Throw e
          | Normal fees =>
              Normal
                {| RevolutRecord.date := CryptoRow.date record;
                   RevolutRecord.type := type;
                   RevolutRecord.ticker := None;
                   RevolutRecord.symbol := CryptoRow.symbol record;
                   RevolutRecord.quantity :=
                     Some (parseFloat (CryptoRow.quantity record));
                   RevolutRecord.pricePerShare := None;
                   RevolutRecord.totalAmount := None;
                   RevolutRecord.currency := currency;
                   RevolutRecord.price := Some price;
                   RevolutRecord.value := Some value;
                   RevolutRecord.fees := Some fees |}
          end
      end
  end.

(** ** The field coercion rules *)

(** On the [type] column, [cast] is the chain of tests on the lowered
    label. *)
Lemma cast_type (label : jsstring) :
  cast label (lit "type") =
  let action := toLocaleLowerCase label in
  if (indexOf action (lit "buy") >? -1)%Z
     || (indexOf action (lit "stock split") >? -1)%Z
  then CString (lit "buy")
  else if (indexOf action (lit "sell") >? -1)%Z then CString (lit "sell")
  else if (indexOf action (lit "dividend") >? -1)%Z
  then CString (lit "dividend")
  else if (indexOf action (lit "fee") >? -1)%Z then CString (lit "fee")
  else CString label.
Proof. reflexivity. Qed.

Lemma cast_type_canonical (kind : jsstring) :
  In kind [lit "buy"; lit "sell"; lit "dividend"; lit "fee"] ->
  cast kind (lit "type") = CString kind.
Proof.
  intros [<- | [<- | [<- | [<- | []]]]]; rewrite cast_type; cbv zeta;
    lower_literals; reflexivity.
Qed.

(** [label] contains [t], compared without regard to case. *)
Definition containsIgnoringCase (label t : jsstring) : Prop :=
  occursIn t (toLocaleLowerCase label).

(** C7. The invest action mapping is an ordered rule list with
    first-match-wins semantics over case-insensitive substring tests:
    "buy" or "stock split" gives buy; else "sell" gives sell; else
    "dividend" gives dividend; else "fee" gives fee; a label that matches no
    rule is passed through unchanged.  The mapping is idempotent, and maps
    each canonical kind, "buy" among them, to itself. *)
Theorem invest_action_mapping (label : jsstring) :
  let has := containsIgnoringCase label in
  let mapped := cast label (lit "type") in
  (has (lit "buy") \/ has (lit "stock split") -> mapped = CString (lit "buy"))
  /\ (~ has (lit "buy") -> ~ has (lit "stock split") -> has (lit "sell") ->
      mapped = CString (lit "sell"))
  /\ (~ has (lit "buy") -> ~ has (lit "stock split") -> ~ has (lit "sell") ->
      has (lit "dividend") -> mapped = CString (lit "dividend"))
  /\ (~ has (lit "buy") -> ~ has (lit "stock split") -> ~ has (lit "sell") ->
      ~ has (lit "dividend") -> has (lit "fee") -> mapped = CString (lit "fee"))
  /\ (~ has (lit "buy") -> ~ has (lit "stock split") -> ~ has (lit "sell") ->
      ~ has (lit "dividend") -> ~ has (lit "fee") -> mapped = CString label)
  /\ (forall kind, mapped = CString kind ->
                   cast kind (lit "type") = CString kind)
  /\ cast (lit "buy") (lit "type") = CString (lit "buy").
Proof.
  cbv zeta. unfold containsIgnoringCase. rewrite cast_type. cbv zeta.
  set (action := toLocaleLowerCase label).
  destruct (indexOf action (lit "buy") >? -1)%Z eqn:Ebuy;
  destruct (indexOf action (lit "stock split") >? -1)%Z eqn:Esplit;
  destruct (indexOf action (lit "sell") >? -1)%Z eqn:Esell;
  destruct (indexOf action (lit "dividend") >? -1)%Z eqn:Ediv;
  destruct (indexOf action (lit "fee") >? -1)%Z eqn:Efee;
  rewrite ?indexOf_occurs, ?indexOf_absent in *; simpl;
  repeat split; intros; try tauto;
  try (match goal with
       | H : CString _ = CString _ |- _ => injection H as <-
       end);
  try (apply cast_type_canonical; simpl; tauto).
  all: rewrite cast_type; cbv zeta; fold action;
    repeat match goal with
           | H : ~ occursIn _ _ |- _ => apply indexOf_absent in H; rewrite H
           end; reflexivity.
Qed.

(** C4, at the input ["$1,234.5"]: only the dollar sign is removed, so the
    number is read up to the comma and the cell becomes 1, not 1234.5. *)
Theorem cast_numeric_grouping_comma :
  cast (lit "$1,234.5") (lit "quantity") = CNumber (num 1)
  /\ cast (lit "$1,234.5") (lit "pricePerShare") = CNumber (num 1)
  /\ cast (lit "$1,234.5") (lit "totalAmount") = CNumber (num 1)
  /\ num 1 <> Finite (2469 # 2).
Proof. repeat split; try reflexivity. discriminate. Qed.

(** X1. The schema detector: the crypto layout is chosen exactly when the first
    line of the input has seven comma-separated fields, that is six commas;
    any other count selects the invest layout. *)
Theorem schema_detection (input : jsstring) :
  (processFileContents input = Crypto
   <-> occurrences 44 (before 10 input) = 6)
  /\ (processFileContents input = Invest
      <-> occurrences 44 (before 10 input) <> 6).
Proof.
  unfold processFileContents.
  rewrite split_first, split_length.
  destruct (Nat.eqb_spec (S (occurrences 44 (before 10 input))) 7) as [E | E];
    split; split; intros H; try discriminate; try reflexivity; try lia.
Qed.

(** X2. Currency aliasing: the cell "GBX" of the currency column becomes "GBp",
    which is not "GBP"; any other currency cell is left as it is. *)
Theorem currency_alias :
  cast (lit "GBX") (lit "currency") = CString (lit "GBp")
  /\ lit "GBp" <> lit "GBP"
  /\ forall columnValue,
       columnValue <> lit "GBX" ->
       cast columnValue (lit "currency") = CString columnValue.
Proof.
  split; [reflexivity |]. split; [discriminate |].
  intros columnValue H. apply str_eqb_neq in H.
  unfold cast. cbn [andb]. change (str_eqb (lit "currency") (lit "currency")) with true.
  cbn [andb]. rewrite H. reflexivity.
Qed.

(** X3. Numeric coercion of the invest layout, as the code has it: the empty
    cell of a quantity, price-per-share or total-amount column becomes 0;
    any other cell is parsed after its dollar signs and the white space
    around it are removed; "$12.50" becomes 12.5. *)
Theorem invest_numeric_coercion (columnValue : jsstring) :
  let coerced :=
    if str_eqb columnValue [] then CNumber (num 0)
    else CNumber (parseFloat (trim (replace_dollars columnValue))) in
  cast columnValue (lit "quantity") = coerced
  /\ cast columnValue (lit "pricePerShare") = coerced
  /\ cast columnValue (lit "totalAmount") = coerced
  /\ cast [] (lit "totalAmount") = CNumber (num 0)
  /\ cast (lit "$12.50") (lit "totalAmount") = CNumber (Finite (25 # 2))
  /\ cast (lit " $ 7 ") (lit "quantity") = CNumber (num 7).
Proof. repeat split. Qed.

(** ** The currency detector *)

(** C8. The currency detector removes every digit, dot and comma, trims
    white space, converts to upper case and maps the euro sign to EUR, the
    dollar sign to USD, the pound sign to GBP, "SEK" to SEK and anything
    else, the empty remainder included, to EUR. *)
Theorem currency_detection (value : jsstring) :
  let remainder :=
    toLocaleUpperCase
      (trim (filter (fun c => negb (isNumericChar c)) value)) in
  (remainder = EURO_SIGN -> detectCurrency value = lit "EUR")
  /\ (remainder = lit "$" -> detectCurrency value = lit "USD")
  /\ (remainder = POUND_SIGN -> detectCurrency value = lit "GBP")
  /\ (remainder = lit "SEK" -> detectCurrency value = lit "SEK")
  /\ (remainder <> EURO_SIGN -> remainder <> lit "$" ->
      remainder <> POUND_SIGN -> remainder <> lit "SEK" ->
      detectCurrency value = lit "EUR")
  /\ detectCurrency (EURO_SIGN ++ lit "100") = lit "EUR"
  /\ detectCurrency (lit "$50") = lit "USD"
  /\ detectCurrency (POUND_SIGN ++ lit "20") = lit "GBP"
  /\ detectCurrency (lit "100 SEK") = lit "SEK"
  /\ detectCurrency (lit "100") = lit "EUR"
  /\ detectCurrency [] = lit "EUR".
Proof.
  cbv zeta. unfold detectCurrency. rewrite replace_numeric_filter.
  set (remainder :=
         toLocaleUpperCase (trim (filter (fun c => negb (isNumericChar c)) value))).
  repeat split.
  - intros ->. reflexivity.
  - intros ->. reflexivity.
  - intros ->. reflexivity.
  - intros ->. reflexivity.
  - intros H1 H2 H3 H4.
    apply str_eqb_neq in H1, H2, H3, H4. now rewrite H1, H2, H3, H4.
  - rewrite upper_plain by reflexivity. reflexivity.
  - rewrite upper_plain by reflexivity. reflexivity.
  - rewrite upper_plain by reflexivity. reflexivity.
  - rewrite upper_plain by reflexivity. reflexivity.
  - rewrite upper_plain by reflexivity. reflexivity.
  - rewrite upper_plain by reflexivity. reflexivity.
Qed.

(** ** The crypto per-row transform *)

(** A field that holds a digit, a dot or a comma. *)
Definition hasNumericChar (s : jsstring) : Prop :=
  exists c, In c s /\ isNumericChar c = true.

Definition emptyOrNumeric (s : jsstring) : Prop := s = [] \/ hasNumericChar s.

Lemma hasNumericChar_existsb (s : jsstring) :
  hasNumericChar s <-> existsb isNumericChar s = true.
Proof. unfold hasNumericChar. now rewrite existsb_exists. Qed.

Lemma not_hasNumericChar (s : jsstring) :
  ~ hasNumericChar s <-> match_numeric s = None.
Proof.
  rewrite match_numeric_null, hasNumericChar_existsb.
  induction s as [|c s IH]; simpl.
  - split; [reflexivity | discriminate].
  - destruct (isNumericChar c); simpl; [split; [tauto | discriminate] | exact IH].
Qed.

(** The amount of a field with a fallback match, as the price has, is
    always a number. *)
Lemma amountOrZero_fallback (field : jsstring) :
  exists n,
    amountOrZero field (Some (nullish (match_numeric field) [lit "0"])) = Normal n.
Proof.
  unfold amountOrZero. destruct (negb (str_eqb field [])); [| eauto].
  destruct (match_numeric field) as [[|first others]|] eqn:E; simpl; eauto.
  unfold match_numeric in E. destruct (numericRuns field []); discriminate.
Qed.

Lemma amountOrZero_numeric (field : jsstring) :
  emptyOrNumeric field ->
  exists n, amountOrZero field (match_numeric field) = Normal n.
Proof.
  intros [-> | H]; [exists (num 0); reflexivity |].
  unfold amountOrZero. destruct (negb (str_eqb field [])); [| eauto].
  apply hasNumericChar_existsb, match_numeric_some in H as [first [others ->]].
  simpl; eauto.
Qed.

Lemma amountOrZero_throws (field : jsstring) :
  ~ emptyOrNumeric field ->
  amountOrZero field (match_numeric field) = Throw TypeError.
Proof.
  intros H. unfold amountOrZero.
  destruct (str_eqb field []) eqn:E.
  - apply str_eqb_eq in E. exfalso; apply H; now left.
  - assert (Hn : ~ hasNumericChar field) by (intros Hn; apply H; now right).
    apply not_hasNumericChar in Hn. rewrite Hn. reflexivity.
Qed.

Lemma emptyOrNumeric_dec (s : jsstring) :
  emptyOrNumeric s \/ ~ emptyOrNumeric s.
Proof.
  destruct s as [|c s]; [left; now left |].
  destruct (existsb isNumericChar (c :: s)) eqn:E.
  - left; right. now apply hasNumericChar_existsb.
  - right. intros [H | H]; [discriminate |].
    apply hasNumericChar_existsb in H. congruence.
Qed.

(** C10. The crypto per-row transform completes whenever the value and fees
    fields are each empty or hold a digit, dot or comma; the price field
    never makes it throw, because its match has the ["0"] fallback; a
    non-empty value or fees field with no such character makes it throw on
    reading the first element of an absent match. *)
Theorem crypto_transform_total (row : CryptoRow.t) :
  (emptyOrNumeric (CryptoRow.value row) ->
   emptyOrNumeric (CryptoRow.fees row) ->
   exists record, on_record row = Normal record)
  /\ (exists n,
        amountOrZero (CryptoRow.price row)
          (Some (nullish (match_numeric (CryptoRow.price row)) [lit "0"]))
        = Normal n)
  /\ (~ emptyOrNumeric (CryptoRow.value row)
      \/ ~ emptyOrNumeric (CryptoRow.fees row) ->
      on_record row = Throw TypeError).
Proof.
  unfold on_record.
  destruct (amountOrZero_fallback (CryptoRow.price row)) as [p Hp].
  rewrite Hp. repeat split.
  - intros Hv Hf.
    destruct (amountOrZero_numeric _ Hv) as [v ->].
    destruct (amountOrZero_numeric _ Hf) as [f ->].
    eauto.
  - eauto.
  - intros [Hv | Hf].
    + now rewrite (amountOrZero_throws _ Hv).
    + destruct (emptyOrNumeric_dec (CryptoRow.value row)) as [Hv | Hv].
      * destruct (amountOrZero_numeric _ Hv) as [v ->].
        now rewrite (amountOrZero_throws _ Hf).
      * now rewrite (amountOrZero_throws _ Hv).
Qed.

(** X6. What the crypto transform computes when it completes: the type is
    "buy" or "sell" when the label is that word in any case and "dividend"
    otherwise, the currency is detected from the price field, the quantity
    is parsed directly, an empty price, value or fees field gives 0, and a
    field that is not empty gives the parse of its first numeric token
    without the token's first comma (0 for a price with no such token). *)
Theorem on_record_fields (row : CryptoRow.t) (record : RevolutRecord.t) :
  on_record row = Normal record ->
  let amount (field : jsstring) (n : option number) :=
    (field = [] -> n = Some (num 0))
    /\ (forall first others,
          field <> [] -> match_numeric field = Some (first :: others) ->
          n = Some (parseFloat (replace_first_comma first))) in
  RevolutRecord.type record =
    (if str_eqb (toLocaleLowerCase (CryptoRow.type row)) (lit "buy")
     then lit "buy"
     else if str_eqb (toLocaleLowerCase (CryptoRow.type row)) (lit "sell")
          then lit "sell" else lit "dividend")
  /\ RevolutRecord.currency record = detectCurrency (CryptoRow.price row)
  /\ RevolutRecord.quantity record = Some (parseFloat (CryptoRow.quantity row))
  /\ amount (CryptoRow.price row) (RevolutRecord.price record)
  /\ amount (CryptoRow.value row) (RevolutRecord.value record)
  /\ amount (CryptoRow.fees row) (RevolutRecord.fees record)
  /\ (CryptoRow.price row <> [] -> match_numeric (CryptoRow.price row) = None ->
      RevolutRecord.price record = Some (num 0)).
Proof.
  unfold on_record.
  destruct (amountOrZero (CryptoRow.price row) _) as [p|] eqn:Ep; [| discriminate].
  destruct (amountOrZero (CryptoRow.value row) _) as [v|] eqn:Ev; [| discriminate].
  destruct (amountOrZero (CryptoRow.fees row) _) as [f|] eqn:Ef; [| discriminate].
  intros H; injection H as <-; cbv zeta; simpl.
  unfold amountOrZero in Ep, Ev, Ef.
  refine (conj eq_refl (conj eq_refl (conj eq_refl
            (conj (conj _ _) (conj (conj _ _) (conj (conj _ _) _)))))).
  - intros E. rewrite E in Ep. simpl in Ep. congruence.
  - intros first others Hne Hm. apply str_eqb_neq in Hne.
    rewrite Hne, Hm in Ep. simpl in Ep. congruence.
  - intros E. rewrite E in Ev. simpl in Ev. congruence.
  - intros first others Hne Hm. apply str_eqb_neq in Hne.
    rewrite Hne, Hm in Ev. simpl in Ev. congruence.
  - intros E. rewrite E in Ef. simpl in Ef. congruence.
  - intros first others Hne Hm. apply str_eqb_neq in Hne.
    rewrite Hne, Hm in Ef. simpl in Ef. congruence.
  - intros Hne Hm. apply str_eqb_neq in Hne.
    rewrite Hne, Hm in Ep. simpl in Ep. injection Ep as <-. reflexivity.
Qed.

(** A crypto row whose price and value have two grouping commas. *)
Definition groupedRow : CryptoRow.t :=
  {| CryptoRow.date := lit "2024-03-01 10:00:00";
     CryptoRow.type := lit "BUY";
     CryptoRow.symbol := lit "BTC";
     CryptoRow.quantity := lit "20";
     CryptoRow.price := lit "$1,234,567.89";
     CryptoRow.value := lit "$24,691,357.80";
     CryptoRow.fees := lit "$0.00" |}.

(** C5, at a price with two grouping commas: the leading numeric token is
    "1,234,567.89", only its first comma is removed, and the price is read
    as 1234; with the grouping removed the token parses to 1234567.89. *)
Theorem on_record_second_comma :
  match_numeric (CryptoRow.price groupedRow) = Some [lit "1,234,567.89"]
  /\ parseFloat (filter (fun c => negb (N.eqb c 44)) (lit "1,234,567.89"))
     = Finite (123456789 # 100)
  /\ exists record,
       on_record groupedRow = Normal record
       /\ RevolutRecord.type record = lit "buy"
       /\ RevolutRecord.currency record = lit "USD"
       /\ RevolutRecord.price record = Some (num 1234)
       /\ RevolutRecord.value record = Some (num 24691).
Proof.
  split; [reflexivity |]. split; [reflexivity |].
  unfold on_record, detectCurrency.
  lower_literals. rewrite upper_plain by reflexivity.
  eexists. split; [reflexivity |]. repeat split.
Qed.

(** ** More on the field coercion rules *)

(** The columns whose cells [cast] turns into numbers. *)
Definition isNumericColumn (column : jsstring) : bool :=
  str_eqb column (lit "quantity")
  || str_eqb column (lit "pricePerShare")
  || str_eqb column (lit "totalAmount").

Lemma isNumericColumn_cases (column : jsstring) :
  isNumericColumn column = true ->
  column = lit "quantity" \/ column = lit "pricePerShare"
  \/ column = lit "totalAmount".
Proof.
  unfold isNumericColumn. rewrite !orb_true_iff, !str_eqb_eq. tauto.
Qed.

Lemma cast_numeric_column (columnValue column : jsstring) :
  isNumericColumn column = true ->
  cast columnValue column =
  if str_eqb columnValue [] then CNumber (num 0)
  else CNumber (parseFloat (trim (replace_dollars columnValue))).
Proof.
  intros H. apply isNumericColumn_cases in H as [-> | [-> | ->]]; reflexivity.
Qed.

(** X7. What [cast] returns, column by column: a cell of the quantity,
    pricePerShare or totalAmount column always becomes a number, whatever
    its text; a cell of any other column always stays a string, and outside
    the type and currency columns it is the text itself. *)
Theorem cast_kinds (columnValue column : jsstring) :
  (isNumericColumn column = true ->
   exists n, cast columnValue column = CNumber n)
  /\ (isNumericColumn column = false ->
      exists s, cast columnValue column = CString s)
  /\ (isNumericColumn column = false ->
      column <> lit "type" -> column <> lit "currency" ->
      cast columnValue column = CString columnValue).
Proof.
  refine (conj _ (conj _ _)).
  - intros H. rewrite (cast_numeric_column _ _ H).
    destruct (str_eqb columnValue []); eauto.
  - intros H. unfold cast. fold (isNumericColumn column). rewrite H.
    destruct (str_eqb column (lit "currency") && str_eqb columnValue (lit "GBX"));
      [eauto |].
    destruct (str_eqb column (lit "type")); [| eauto].
    cbv zeta.
    repeat match goal with
           | |- context [if ?b then _ else _] => destruct b
           end; eauto.
  - intros H Htype Hcurrency. unfold cast. fold (isNumericColumn column).
    rewrite H. apply str_eqb_neq in Htype, Hcurrency.
    rewrite Htype, Hcurrency. reflexivity.
Qed.

(** X8. A numeric cell that is not empty but holds only dollar signs and
    white space becomes NaN, not 0: only the empty cell is given the value
    0. *)
Theorem cast_blank_amount (columnValue column : jsstring) :
  isNumericColumn column = true ->
  columnValue <> [] ->
  forallb (fun c => N.eqb c 36 || isWhiteSpace c) columnValue = true ->
  cast columnValue column = CNumber NaN.
Proof.
  intros Hcol Hne Hblank. rewrite (cast_numeric_column _ _ Hcol).
  apply str_eqb_neq in Hne. rewrite Hne.
  assert (Hws : forallb isWhiteSpace (replace_dollars columnValue) = true).
  { unfold replace_dollars. clear Hne.
    induction columnValue as [|c v IH]; simpl in *; [reflexivity |].
    apply andb_true_iff in Hblank as [Hc Hv].
    destruct (N.eqb c 36); simpl in *; [now apply IH |].
    rewrite Hc. now apply IH. }
  rewrite (trim_whiteSpace _ Hws). reflexivity.
Qed.

(** X9. The currency detector answers one of EUR, USD, GBP and SEK for every
    input, and digits, dots and commas play no part in the answer: removing
    them all, or inserting a run of them anywhere, changes nothing. *)
Theorem detectCurrency_codes (value : jsstring) :
  In (detectCurrency value) [lit "EUR"; lit "USD"; lit "GBP"; lit "SEK"]
  /\ detectCurrency (replace_numeric value) = detectCurrency value
  /\ (forall before digits after,
        value = before ++ after ->
        forallb isNumericChar digits = true ->
        detectCurrency (before ++ digits ++ after) = detectCurrency value).
Proof.
  refine (conj _ (conj _ _)).
  - unfold detectCurrency. cbv zeta.
    repeat match goal with
           | |- context [if ?b then _ else _] => destruct b
           end; simpl; tauto.
  - unfold detectCurrency. rewrite !replace_numeric_filter.
    f_equal.
    assert (E : filter (fun c => negb (isNumericChar c))
                  (filter (fun c => negb (isNumericChar c)) value)
                = filter (fun c => negb (isNumericChar c)) value).
    { induction value as [|c v IH]; simpl; [reflexivity |].
      destruct (isNumericChar c) eqn:Ec; simpl; [exact IH |].
      rewrite Ec. simpl. now rewrite IH. }
    now rewrite E.
  - intros before digits after -> Hdigits.
    unfold detectCurrency. rewrite !replace_numeric_filter, !filter_app.
    assert (E : filter (fun c => negb (isNumericChar c)) digits = []).
    { induction digits as [|d ds IH]; simpl in *; [reflexivity |].
      apply andb_true_iff in Hdigits as [-> Hds]. simpl. now apply IH. }
    now rewrite E.
Qed.

(** X10. The price, value and fees of a crypto record are never negative:
    each is NaN, the positive infinity (a token too large for a finite
    Number) or a value that is at least 0, because the numeric token read
    off the field carries no sign (a field "-$5.00" gives 5). *)
Theorem crypto_amounts_unsigned (row : CryptoRow.t)
    (record : RevolutRecord.t) :
  on_record row = Normal record ->
  let unsigned (n : option number) :=
    n = Some NaN \/ n = Some (Infinity false)
    \/ exists q, n = Some (Finite q) /\ (0 <= q)%Q in
  unsigned (RevolutRecord.price record)
  /\ unsigned (RevolutRecord.value record)
  /\ unsigned (RevolutRecord.fees record).
Proof.
  assert (Hamount :
    forall field amount n,
      (forall first others, amount = Some (first :: others) ->
                            forallb isNumericChar first = true) ->
      amountOrZero field amount = Normal n ->
      n = NaN \/ n = Infinity false
      \/ exists q, n = Finite q /\ (0 <= q)%Q).
  { intros field amount n Hnum. unfold amountOrZero.
    destruct (negb (str_eqb field [])).
    - destruct amount as [[|first others]|]; simpl; try discriminate.
      intros H; injection H as <-.
      apply parseFloat_numeric, replace_first_comma_numeric.
      now apply (Hnum first others).
    - intros H; injection H as <-. right; right. exists (inject_Z 0).
      split; [reflexivity |]. unfold Qle; simpl; lia. }
  unfold on_record.
  destruct (amountOrZero (CryptoRow.price row) _) as [p|] eqn:Ep; [| discriminate].
  destruct (amountOrZero (CryptoRow.value row) _) as [v|] eqn:Ev; [| discriminate].
  destruct (amountOrZero (CryptoRow.fees row) _) as [f|] eqn:Ef; [| discriminate].
  intros H; injection H as <-; cbv zeta; simpl.
  apply Hamount in Ep, Ev, Ef.
  - repeat split.
    + destruct Ep as [-> | [-> | [q [-> Hq]]]];
        [now left | right; now left | right; right; eauto].
    + destruct Ev as [-> | [-> | [q [-> Hq]]]];
        [now left | right; now left | right; right; eauto].
    + destruct Ef as [-> | [-> | [q [-> Hq]]]];
        [now left | right; now left | right; right; eauto].
  - intros first others. apply match_numeric_numeric.
  - intros first others. apply match_numeric_numeric.
  - intros first others H. injection H as H.
    destruct (match_numeric (CryptoRow.price row)) as [[|m ms]|] eqn:Em;
      simpl in H.
    + unfold match_numeric in Em.
      destruct (numericRuns (CryptoRow.price row) []); discriminate.
    + injection H as <- _. now apply (match_numeric_numeric _ _ _ Em).
    + injection H as <- _. reflexivity.
Qed.

(** ** The export assembler

    The account identifier of the process environment, the clock, the date
    formatter and the lookup service are the converter's surroundings.  The
    service may keep state between lookups: a lookup takes the state it
    finds and leaves the next one. *)

Variable GHOSTFOLIO_ACCOUNT_ID : option jsstring.
Variable now : jsstring.
Variable formatDate : jsstring -> jsstring.
Variable ServiceState : Type.
Variable getSecurity :
  ServiceState -> jsstring -> jsstring -> LookupOutcome * ServiceState.

(** The variables of [processRevolutFile] while it runs: the activities of
    [result], the service, and the calls made so far. *)
Record RunState : Type := {
  result_activities : list Activity.t;
  service : ServiceState;
  trace : list event
}.

(** How an iteration of the loop ends: with the next iteration, or with the
    [return] of the function. *)
Inductive control : Type :=
| Next (st : RunState)
| Return (st : RunState).

Definition feeActivity (record : RevolutRecord.t) : Activity.t :=
  {| Activity.accountId := GHOSTFOLIO_ACCOUNT_ID;
     Activity.comment :=
       lit "Revolut " ++ toLocaleLowerCase (RevolutRecord.type record);
     Activity.fee := Math_abs (ToNumber (RevolutRecord.totalAmount record));
     Activity.quantity := Some (num 1);
     Activity.type := GhostfolioOrderType_at (RevolutRecord.type record);
     Activity.unitPrice := Some (num 0);
     Activity.currency := RevolutRecord.currency record;
     Activity.dataSource := lit "MANUAL";
     Activity.date := formatDate (RevolutRecord.date record);
     Activity.symbol :=
       lit "Revolut " ++ toLocaleLowerCase (RevolutRecord.type record) |}.

Definition securityActivity (record : RevolutRecord.t)
    (security : YahooFinanceRecord.t) : Activity.t :=
  let quantity :=
    if str_eqb (RevolutRecord.type record) (lit "dividend")
    then Some (nullish (RevolutRecord.quantity record) (num 1))
    else RevolutRecord.quantity record in
  let unitPrice :=
    if str_eqb (RevolutRecord.type record) (lit "dividend")
    then Some (Math_abs (nullish (RevolutRecord.totalAmount record) (num 1)))
    else match RevolutRecord.pricePerShare record with
         | Some p => Some p
         | None => RevolutRecord.price record
         end in
  {| Activity.accountId := GHOSTFOLIO_ACCOUNT_ID;
     Activity.comment := [];
     Activity.fee := num 0;
     Activity.quantity := quantity;
     Activity.type := GhostfolioOrderType_at (RevolutRecord.type record);
     Activity.unitPrice := unitPrice;
     Activity.currency := RevolutRecord.currency record;
     Activity.dataSource := lit "YAHOO";
     Activity.date := formatDate (RevolutRecord.date record);
     Activity.symbol := YahooFinanceRecord.symbol security |}.

(** The second argument of [getSecurity]. *)
Definition lookupKey (record : RevolutRecord.t) : jsstring :=
  nullish (RevolutRecord.ticker record)
    (RevolutRecord.symbol record ++ lit "-" ++ RevolutRecord.currency record).

Definition noResultMessage (record : RevolutRecord.t) : jsstring :=
  lit "[i] No result found for " ++ RevolutRecord.type record
  ++ lit " action for "
  ++ nullish (RevolutRecord.ticker record) (RevolutRecord.symbol record)
  ++ lit " with currency " ++ RevolutRecord.currency record
  ++ lit "! Please add this manually.." ++ [10%N].

(** The body of the [for] loop of [processRevolutFile], at index [idx]. *)
Definition processRecord (st : RunState) (idx : nat)
    (record : RevolutRecord.t) : control :=
  if isIgnoredRecord record then
    Next {| result_activities := result_activities st;
            service := service st;
            trace := trace st ++ [BarIncrement] |}
  else if str_eqb (toLocaleLowerCase (RevolutRecord.type record)) (lit "fee")
  then
    Next {| result_activities := result_activities st ++ [feeActivity record];
            service := service st;
            trace := trace st ++ [BarIncrement] |}
  else
    let key := lookupKey record in
    let currency := RevolutRecord.currency record in
    let (outcome, service') := getSecurity (service st) key currency in
    match outcome with
    | Rejected err =>
        Return {| result_activities := result_activities st;
                  service := service';
                  trace := trace st
                           ++ [GetSecurity key currency outcome;
                               LogQueryError (RevolutRecord.ticker record)
                                             (idx + 2);
                               ErrorCallback err] |}
    | Resolved None =>
        Next {| result_activities := result_activities st;
                service := service';
                trace := trace st
                         ++ [GetSecurity key currency outcome;
                             ProgressLog (noResultMessage record);
                             BarIncrement] |}
    | Resolved (Some security) =>
        Next {| result_activities :=
                  result_activities st ++ [securityActivity record security];
                service := service';
                trace := trace st
                         ++ [GetSecurity key currency outcome;
                             BarIncrement] |}
    end.

(** The [for] loop over [records], from index [idx] on. *)
Fixpoint processRecords (st : RunState) (idx : nat)
    (records : list RevolutRecord.t) : control :=
  match records with
  | [] => Next st
  | record :: rest =>
      match processRecord st idx record with
      | Next st' => processRecords st' (S idx) rest
      | Return st' => Return st'
      end
  end.

Definition parsingError (err : option Error) : Error :=
  {| message :=
       lit "An error ocurred while parsing!"
       ++ match err with
          | Some e => lit " Details: " ++ message e
          | None => []
          end |}.

(** [processRevolutFile]: the calls it makes, in order, when the service
    starts in [service0].  [err] and [records] are what the tokenizer passes
    to its callback; either may be [undefined]. *)
Definition processRevolutFile (service0 : ServiceState) (err : option Error)
    (records : option (list RevolutRecord.t)) : list event :=
  match err, records with
  | Some _, _ | None, None | None, Some [] =>
      [ErrorCallback (parsingError err)]
  | None, Some (r :: rs) =>
      let st :=
        {| result_activities := [];
           service := service0;
           trace := [ConsoleLog (lit "[i] Read CSV file. Start processing..");
                     ProgressCreate (List.length (r :: rs))] |} in
      match processRecords st 0 (r :: rs) with
      | Return st' => trace st'
      | Next st' =>
          trace st'
          ++ [ProgressStop;
              SuccessCallback
                {| meta := {| meta_date := now; version := lit "v0" |};
                   activities := result_activities st' |}]
      end
  end.

(** [on_record] over the rows of the tokenizer, in order, up to the first
    one on which it throws. *)
Fixpoint on_records (rows : list CryptoRow.t)
    : completion (list RevolutRecord.t) :=
  match rows with
  | [] => Normal []
  | row :: rest =>
      match on_record row with
      | Throw e => Throw e
      | Normal record =>
          match on_records rest with
          | Throw e => Throw e
          | Normal records => Normal (record :: records)
          end
      end
  end.

(** [processCryptoFileContents], from the rows the tokenizer reads off the
    input ([tokens]): the tokenizer applies [on_record] to each row and hands
    the records, or the error it met, to [processRevolutFile]. *)
Definition processCryptoFileContents (service0 : ServiceState)
    (tokens : completion (list CryptoRow.t)) : list event :=
  match tokens with
  | Throw e => processRevolutFile service0 (Some e) None
  | Normal rows =>
      match on_records rows with
      | Throw e => processRevolutFile service0 (Some e) None
      | Normal records => processRevolutFile service0 None (Some records)
      end
  end.

(** *** Iterations of the loop *)

(** The state after an iteration that adds [new] to the activities, leaves
    the service in [service'] and makes the calls [calls]. *)
Definition advance (st : RunState) (new : list Activity.t)
    (service' : ServiceState) (calls : list event) : RunState :=
  {| result_activities := result_activities st ++ new;
     service := service';
     trace := trace st ++ calls |}.

Definition isFee (record : RevolutRecord.t) : bool :=
  str_eqb (toLocaleLowerCase (RevolutRecord.type record)) (lit "fee").

(** The five ways an iteration of the loop can go. *)
Inductive iteration (st : RunState) (idx : nat) (record : RevolutRecord.t)
    : control -> Prop :=
| iteration_ignored :
    isIgnoredRecord record = true ->
    iteration st idx record (Next (advance st [] (service st) [BarIncrement]))
| iteration_fee :
    isIgnoredRecord record = false -> isFee record = true ->
    iteration st idx record
      (Next (advance st [feeActivity record] (service st) [BarIncrement]))
| iteration_unmatched service' :
    isIgnoredRecord record = false -> isFee record = false ->
    getSecurity (service st) (lookupKey record) (RevolutRecord.currency record)
      = (Resolved None, service') ->
    iteration st idx record
      (Next (advance st [] service'
               [GetSecurity (lookupKey record) (RevolutRecord.currency record)
                            (Resolved None);
                ProgressLog (noResultMessage record);
                BarIncrement]))
| iteration_matched security service' :
    isIgnoredRecord record = false -> isFee record = false ->
    getSecurity (service st) (lookupKey record) (RevolutRecord.currency record)
      = (Resolved (Some security), service') ->
    iteration st idx record
      (Next (advance st [securityActivity record security] service'
               [GetSecurity (lookupKey record) (RevolutRecord.currency record)
                            (Resolved (Some security));
                BarIncrement]))
| iteration_rejected err service' :
    isIgnoredRecord record = false -> isFee record = false ->
    getSecurity (service st) (lookupKey record) (RevolutRecord.currency record)
      = (Rejected err, service') ->
    iteration st idx record
      (Return (advance st [] service'
                 [GetSecurity (lookupKey record) (RevolutRecord.currency record)
                              (Rejected err);
                  LogQueryError (RevolutRecord.ticker record) (idx + 2);
                  ErrorCallback err])).

Lemma processRecord_iteration (st : RunState) (idx : nat)
    (record : RevolutRecord.t) :
  iteration st idx record (processRecord st idx record).
Proof.
  unfold processRecord.
  destruct (isIgnoredRecord record) eqn:Eign.
  - rewrite <- (app_nil_r (result_activities st)) at 1.
    now apply iteration_ignored.
  - fold (isFee record). destruct (isFee record) eqn:Efee.
    + now apply iteration_fee.
    + destruct (getSecurity (service st) (lookupKey record)
                  (RevolutRecord.currency record))
        as [[[security|]|err] service'] eqn:Eget.
      * now apply iteration_matched.
      * rewrite <- (app_nil_r (result_activities st)) at 1.
        now apply iteration_unmatched.
      * rewrite <- (app_nil_r (result_activities st)) at 1.
        now apply iteration_rejected.
Qed.

(** A row whose type is "fee" is not an ignored row. *)
Lemma fee_not_ignored (record : RevolutRecord.t) :
  isFee record = true -> isIgnoredRecord record = false.
Proof.
  unfold isFee, isIgnoredRecord. intros H. apply str_eqb_eq in H.
  rewrite H. reflexivity.
Qed.

(** C2. A row whose action kind is fee adds exactly one activity, with
    quantity 1, unit price 0, the absolute value of the row's total amount
    as fee, data source "MANUAL" and the label "Revolut fee" as symbol and
    comment; the iteration makes no lookup: it leaves the service as it was
    and only advances the progress bar. *)
Theorem fee_row_activity (st : RunState) (idx : nat)
    (record : RevolutRecord.t) :
  RevolutRecord.type record = lit "fee" ->
  isIgnoredRecord record = false
  /\ exists activity,
      processRecord st idx record =
        Next {| result_activities := result_activities st ++ [activity];
                service := service st;
                trace := trace st ++ [BarIncrement] |}
      /\ Activity.quantity activity = Some (num 1)
      /\ Activity.unitPrice activity = Some (num 0)
      /\ Activity.fee activity
         = Math_abs (ToNumber (RevolutRecord.totalAmount record))
      /\ (forall q, RevolutRecord.totalAmount record = Some (Finite q) ->
                    Activity.fee activity = Finite (Qabs q))
      /\ Activity.dataSource activity = lit "MANUAL"
      /\ Activity.symbol activity = lit "Revolut fee"
      /\ Activity.comment activity = lit "Revolut fee".
Proof.
  intros Htype.
  assert (Hfee : isFee record = true).
  { unfold isFee. rewrite Htype. lower_literals. reflexivity. }
  pose proof (fee_not_ignored _ Hfee) as Hign.
  split; [exact Hign |].
  exists (feeActivity record). unfold processRecord.
  rewrite Hign. fold (isFee record). rewrite Hfee.
  split; [reflexivity |]. unfold feeActivity; simpl.
  rewrite Htype. lower_literals.
  repeat split. intros q ->. reflexivity.
Qed.

(** C6. A row that is neither ignored nor a fee and whose lookup finds a
    security adds one activity.  For a dividend its quantity is the row's,
    1 when the row has none, and its unit price is the absolute value of the
    total amount, of 1 when the row has none.  For a buy or a sell its
    quantity is the row's and its unit price is the row's price per share
    when it has one, else the row's price. *)
Theorem resolved_row_activity (st : RunState) (idx : nat)
    (record : RevolutRecord.t) (security : YahooFinanceRecord.t)
    (service' : ServiceState) :
  isIgnoredRecord record = false ->
  toLocaleLowerCase (RevolutRecord.type record) <> lit "fee" ->
  getSecurity (service st) (lookupKey record) (RevolutRecord.currency record)
    = (Resolved (Some security), service') ->
  exists activity,
    processRecord st idx record =
      Next {| result_activities := result_activities st ++ [activity];
              service := service';
              trace := trace st
                       ++ [GetSecurity (lookupKey record)
                             (RevolutRecord.currency record)
                             (Resolved (Some security));
                           BarIncrement] |}
    /\ (RevolutRecord.type record = lit "dividend" ->
        Activity.quantity activity
          = Some (nullish (RevolutRecord.quantity record) (num 1))
        /\ Activity.unitPrice activity
           = Some (Math_abs (nullish (RevolutRecord.totalAmount record) (num 1))))
    /\ (RevolutRecord.type record = lit "buy"
        \/ RevolutRecord.type record = lit "sell" ->
        Activity.quantity activity = RevolutRecord.quantity record
        /\ Activity.unitPrice activity
           = match RevolutRecord.pricePerShare record with
             | Some perShare => Some perShare
             | None => RevolutRecord.price record
             end)
    /\ (RevolutRecord.type record = lit "dividend" ->
        (forall n, RevolutRecord.quantity record = Some n ->
                   Activity.quantity activity = Some n)
        /\ (RevolutRecord.quantity record = None ->
            Activity.quantity activity = Some (num 1))
        /\ (forall q, RevolutRecord.totalAmount record = Some (Finite q) ->
                      Activity.unitPrice activity = Some (Finite (Qabs q)))
        /\ (forall negative,
              RevolutRecord.totalAmount record = Some (Infinity negative) ->
              Activity.unitPrice activity = Some (Infinity false))
        /\ (RevolutRecord.totalAmount record = Some NaN ->
            Activity.unitPrice activity = Some NaN)
        /\ (RevolutRecord.totalAmount record = None ->
            Activity.unitPrice activity = Some (num 1)))
    /\ (RevolutRecord.type record = lit "buy"
        \/ RevolutRecord.type record = lit "sell" ->
        (forall perShare,
           RevolutRecord.pricePerShare record = Some perShare ->
           Activity.unitPrice activity = Some perShare)
        /\ (RevolutRecord.pricePerShare record = None ->
            Activity.unitPrice activity = RevolutRecord.price record)).
Proof.
  intros Hign Hfee Hget.
  exists (securityActivity record security). unfold processRecord.
  rewrite Hign. apply str_eqb_neq in Hfee. rewrite Hfee, Hget.
  split; [reflexivity |]. unfold securityActivity; simpl.
  refine (conj _ (conj _ (conj _ _))).
  - intros ->. split; reflexivity.
  - intros [-> | ->]; split; reflexivity.
  - intros ->. simpl.
    refine (conj _ (conj _ (conj _ (conj _ (conj _ _))))).
    + intros n ->. reflexivity.
    + intros ->. reflexivity.
    + intros q ->. reflexivity.
    + intros negative ->. reflexivity.
    + intros ->. reflexivity.
    + intros ->. reflexivity.
  - intros [-> | ->]; simpl; split.
    + intros perShare ->. reflexivity.
    + intros ->. reflexivity.
    + intros perShare ->. reflexivity.
    + intros ->. reflexivity.
Qed.

(** *** The calls of a run *)

(** An iteration that goes on has made quiet calls, one of them the
    increment of the progress bar. *)
Lemma iteration_next (st st' : RunState) (idx : nat)
    (record : RevolutRecord.t) :
  processRecord st idx record = Next st' ->
  exists calls,
    trace st' = trace st ++ calls /\ quiet calls = true
    /\ count isBarIncrement calls = 1.
Proof.
  intros H. pose proof (processRecord_iteration st idx record) as Hit.
  rewrite H in Hit. inversion Hit; subst; simpl; eauto.
Qed.

(** An iteration that returns has made a rejected lookup, logged the line
    of the row and called the error callback with the rejection. *)
Lemma iteration_return (st st' : RunState) (idx : nat)
    (record : RevolutRecord.t) :
  processRecord st idx record = Return st' ->
  exists err,
    trace st' =
      trace st
      ++ [GetSecurity (lookupKey record) (RevolutRecord.currency record)
            (Rejected err);
          LogQueryError (RevolutRecord.ticker record) (idx + 2);
          ErrorCallback err].
Proof.
  intros H. pose proof (processRecord_iteration st idx record) as Hit.
  rewrite H in Hit. inversion Hit; subst; simpl; eauto.
Qed.

Lemma processRecords_next (records : list RevolutRecord.t) :
  forall (st st' : RunState) (idx : nat),
    processRecords st idx records = Next st' ->
    exists calls,
      trace st' = trace st ++ calls /\ quiet calls = true
      /\ count isBarIncrement calls = List.length records.
Proof.
  induction records as [|record rest IH]; intros st st' idx H; simpl in H.
  - injection H as <-. exists []. now rewrite app_nil_r.
  - destruct (processRecord st idx record) as [st1|st1] eqn:E; [| discriminate].
    apply iteration_next in E as [c1 [T1 [Q1 B1]]].
    apply IH in H as [c2 [T2 [Q2 B2]]].
    exists (c1 ++ c2). rewrite T2, T1, app_assoc, quiet_app, count_app, Q1, Q2, B1, B2.
    auto.
Qed.

Lemma processRecords_return (records : list RevolutRecord.t) :
  forall (st st' : RunState) (idx : nat),
    processRecords st idx records = Return st' ->
    exists calls key currency ticker err,
      trace st' =
        trace st ++ calls
        ++ [GetSecurity key currency (Rejected err);
            LogQueryError ticker (idx + count isBarIncrement calls + 2);
            ErrorCallback err]
      /\ quiet calls = true
      /\ count isBarIncrement calls < List.length records.
Proof.
  induction records as [|record rest IH]; intros st st' idx H; simpl in H.
  - discriminate.
  - destruct (processRecord st idx record) as [st1|st1] eqn:E.
    + apply iteration_next in E as [c1 [T1 [Q1 B1]]].
      apply IH in H as [c2 [key [currency [ticker [err [T2 [Q2 B2]]]]]]].
      exists (c1 ++ c2), key, currency, ticker, err.
      rewrite T2, T1, quiet_app, count_app, Q1, Q2, B1, <- !app_assoc.
      replace (idx + (1 + count isBarIncrement c2) + 2)
        with (S idx + count isBarIncrement c2 + 2) by lia.
      simpl. repeat split; auto. lia.
    + injection H as <-.
      apply iteration_return in E as [err T].
      exists [], (lookupKey record), (RevolutRecord.currency record),
        (RevolutRecord.ticker record), err.
      rewrite T. unfold count. simpl. rewrite Nat.add_0_r.
      repeat split; auto. lia.
Qed.

(** The three shapes of a run: the parsing error alone; quiet calls that
    end with the stop of the progress bar and the success callback; quiet
    calls that end with a rejected lookup, the log of its line and the error
    callback. *)
Inductive run_shape (err : option Error)
    (records : option (list RevolutRecord.t)) (calls : list event) : Prop :=
| run_parse_failure :
    err <> None \/ records = None \/ records = Some [] ->
    calls = [ErrorCallback (parsingError err)] ->
    run_shape err records calls
| run_success before result :
    err = None -> records <> None -> records <> Some [] ->
    calls = before ++ [ProgressStop; SuccessCallback result] ->
    quiet before = true ->
    run_shape err records calls
| run_lookup_failure before key currency ticker e :
    err = None -> records <> None -> records <> Some [] ->
    calls = before
            ++ [GetSecurity key currency (Rejected e);
                LogQueryError ticker (count isBarIncrement before + 2);
                ErrorCallback e] ->
    quiet before = true ->
    run_shape err records calls.

Lemma processRevolutFile_shape (service0 : ServiceState) (err : option Error)
    (records : option (list RevolutRecord.t)) :
  run_shape err records (processRevolutFile service0 err records).
Proof.
  unfold processRevolutFile.
  destruct err as [e|].
  { apply run_parse_failure; [left; discriminate | reflexivity]. }
  destruct records as [[|r rs]|].
  - apply run_parse_failure; [right; right; reflexivity | reflexivity].
  - match goal with
    | |- context [processRecords ?st 0 (r :: rs)] =>
        destruct (processRecords st 0 (r :: rs)) as [st'|st'] eqn:E
    end.
    + apply processRecords_next in E as [calls [T [Q _]]].
      cbn [trace] in T.
      eapply run_success; try discriminate; try reflexivity.
      rewrite T, quiet_app, Q. reflexivity.
    + apply processRecords_return in E
        as [calls [key [currency [ticker [err [T [Q _]]]]]]].
      rewrite T. cbn [trace]. rewrite app_assoc.
      replace (0 + count isBarIncrement calls + 2)
        with (count isBarIncrement
                ([ConsoleLog (lit "[i] Read CSV file. Start processing..");
                  ProgressCreate (List.length (r :: rs))] ++ calls) + 2)
        by (rewrite count_app; reflexivity).
      eapply run_lookup_failure; try discriminate; try reflexivity.
      rewrite quiet_app, Q. reflexivity.
  - apply run_parse_failure; [right; left; reflexivity | reflexivity].
Qed.

(** The fatal conditions of a run: the tokenizer reports an error, hands
    over no rows or an empty list of rows, or a lookup is rejected. *)
Definition fatal (err : option Error)
    (records : option (list RevolutRecord.t)) (calls : list event) : Prop :=
  err <> None \/ records = None \/ records = Some []
  \/ exists e, In e calls /\ isRejectedLookup e = true.

(** A run that ends with the success callback has met no fatal
    condition. *)
Lemma success_not_fatal (err : option Error)
    (records : option (list RevolutRecord.t)) (before : list event)
    (result : GhostfolioExport) :
  err = None -> records <> None -> records <> Some [] ->
  quiet before = true ->
  ~ fatal err records (before ++ [ProgressStop; SuccessCallback result]).
Proof.
  intros He Hn Hr Q [H | [H | [H | [ev [Hin Hrej]]]]]; try contradiction.
  apply in_app_or in Hin as [Hin | [<- | [<- | []]]]; try discriminate.
  rewrite (quiet_no_rejected _ _ Q Hin) in Hrej. discriminate.
Qed.

(** C1. Every fatal condition is terminal and exclusive: when the tokenizer
    fails or yields no rows, or when a lookup is rejected, the error
    callback is called exactly once, as the last call of the run, and the
    success callback, which alone delivers an export, is not called; a run
    without a fatal condition calls the success callback once and the error
    callback never.  A rejected lookup is followed only by the log of its
    line and the error callback with the rejection.  An ignored row and a
    row whose lookup finds nothing end their iteration with the next row. *)
Theorem fatal_conditions_terminal (service0 : ServiceState)
    (err : option Error) (records : option (list RevolutRecord.t)) :
  let calls := processRevolutFile service0 err records in
  (fatal err records calls ->
   count isErrorCallback calls = 1 /\ count isSuccessCallback calls = 0
   /\ exists before e, calls = before ++ [ErrorCallback e])
  /\ (~ fatal err records calls ->
      count isErrorCallback calls = 0 /\ count isSuccessCallback calls = 1)
  /\ (err <> None \/ records = None \/ records = Some [] ->
      calls = [ErrorCallback (parsingError err)])
  /\ (forall key currency e,
        In (GetSecurity key currency (Rejected e)) calls ->
        exists before ticker,
          calls = before
                  ++ [GetSecurity key currency (Rejected e);
                      LogQueryError ticker (count isBarIncrement before + 2);
                      ErrorCallback e]
          /\ quiet before = true)
  /\ (forall st idx record rest,
        isIgnoredRecord record = true ->
        processRecords st idx (record :: rest)
        = processRecords (advance st [] (service st) [BarIncrement])
            (S idx) rest)
  /\ (forall st idx record rest service',
        isIgnoredRecord record = false -> isFee record = false ->
        getSecurity (service st) (lookupKey record)
          (RevolutRecord.currency record) = (Resolved None, service') ->
        processRecords st idx (record :: rest)
        = processRecords
            (advance st [] service'
               [GetSecurity (lookupKey record) (RevolutRecord.currency record)
                  (Resolved None);
                ProgressLog (noResultMessage record);
                BarIncrement])
            (S idx) rest).
Proof.
  cbv zeta.
  pose proof (processRevolutFile_shape service0 err records) as Hshape.
  set (calls := processRevolutFile service0 err records) in *.
  refine (conj _ (conj _ (conj _ (conj _ (conj _ _))))).
  - intros Hfatal.
    destruct Hshape as [Hp -> | before result He Hn Hr -> Q
                        | before key currency ticker e He Hn Hr -> Q].
    + split; [reflexivity | split; [reflexivity |]].
      exists [], (parsingError err). reflexivity.
    + exfalso. revert Hfatal. now apply success_not_fatal.
    + rewrite !count_app. destruct (quiet_count _ Q) as [-> [-> _]].
      split; [reflexivity | split; [reflexivity |]].
      exists (before
              ++ [GetSecurity key currency (Rejected e);
                  LogQueryError ticker (count isBarIncrement before + 2)]), e.
      rewrite <- app_assoc. reflexivity.
  - intros Hfatal.
    destruct Hshape as [Hp -> | before result He Hn Hr -> Q
                        | before key currency ticker e He Hn Hr -> Q].
    + exfalso; apply Hfatal; unfold fatal; tauto.
    + rewrite !count_app. destruct (quiet_count _ Q) as [-> [-> _]].
      split; reflexivity.
    + exfalso; apply Hfatal. right; right; right.
      exists (GetSecurity key currency (Rejected e)).
      split; [apply in_or_app; right; left; reflexivity | reflexivity].
  - intros Hparse.
    destruct Hshape as [Hp -> | before result He Hn Hr -> Q
                        | before key currency ticker e He Hn Hr -> Q].
    + reflexivity.
    + exfalso; destruct Hparse as [H | [H | H]]; contradiction.
    + exfalso; destruct Hparse as [H | [H | H]]; contradiction.
  - intros key currency e Hin.
    destruct Hshape as [Hp Hc | before result He Hn Hr Hc Q
                        | before key' currency' ticker e' He Hn Hr Hc Q];
      rewrite Hc in Hin |- *.
    + destruct Hin as [H | []]; discriminate.
    + apply in_app_or in Hin as [Hin | [H | [H | []]]]; try discriminate.
      pose proof (quiet_no_rejected _ _ Q Hin); discriminate.
    + apply in_app_or in Hin as [Hin | [H | [H | [H | []]]]]; try discriminate.
      * pose proof (quiet_no_rejected _ _ Q Hin); discriminate.
      * injection H as -> -> ->. exists before, ticker. auto.
  - intros st idx record rest Hign. simpl.
    pose proof (processRecord_iteration st idx record) as Hit.
    inversion Hit; subst; congruence || reflexivity.
  - intros st idx record rest service' Hign Hfee Hget. simpl.
    unfold processRecord. rewrite Hign. fold (isFee record).
    rewrite Hfee, Hget. unfold advance. rewrite app_nil_r. reflexivity.
Qed.

(** *** The order of the activities *)

(** [activity] is what the row [record] contributes in a run that makes the
    calls [calls]. *)
Definition contributes (calls : list event) (record : RevolutRecord.t)
    (activity : Activity.t) : Prop :=
  isIgnoredRecord record = false
  /\ ((isFee record = true /\ activity = feeActivity record)
      \/ (isFee record = false
          /\ exists security,
               activity = securityActivity record security
               /\ In (GetSecurity (lookupKey record)
                        (RevolutRecord.currency record)
                        (Resolved (Some security))) calls)).

(** The row [record] contributes nothing: it is ignored, or its lookup
    found no security. *)
Definition skipped (calls : list event) (record : RevolutRecord.t) : Prop :=
  isIgnoredRecord record = true
  \/ (isIgnoredRecord record = false /\ isFee record = false
      /\ In (GetSecurity (lookupKey record) (RevolutRecord.currency record)
               (Resolved None)) calls).

(** [rows] lists, in increasing order, the indexes of the rows of [records]
    that contributed the activities [new], one each. *)
Definition follows (calls : list event) (records : list RevolutRecord.t)
    (rows : list nat) (new : list Activity.t) : Prop :=
  List.length rows = List.length new
  /\ StronglySorted lt rows
  /\ (forall i k activity,
        nth_error rows i = Some k -> nth_error new i = Some activity ->
        exists record,
          nth_error records k = Some record
          /\ contributes calls record activity)
  /\ (forall k record,
        nth_error records k = Some record -> ~ In k rows ->
        skipped calls record).

Lemma contributes_incl (calls calls' : list event) (record : RevolutRecord.t)
    (activity : Activity.t) :
  incl calls calls' ->
  contributes calls record activity -> contributes calls' record activity.
Proof.
  intros Hincl [Hign [H | [Hfee [security [Ha Hin]]]]]; split; auto.
  right. split; auto. exists security. split; auto.
Qed.

Lemma skipped_incl (calls calls' : list event) (record : RevolutRecord.t) :
  incl calls calls' -> skipped calls record -> skipped calls' record.
Proof.
  intros Hincl [H | [Hign [Hfee Hin]]]; [now left | right].
  split; [exact Hign | split; [exact Hfee | auto]].
Qed.

Lemma contributes_more (calls more : list event) (record : RevolutRecord.t)
    (activity : Activity.t) :
  contributes calls record activity ->
  contributes (more ++ calls) record activity.
Proof. apply contributes_incl, incl_appr, incl_refl. Qed.

Lemma skipped_more (calls more : list event) (record : RevolutRecord.t) :
  skipped calls record -> skipped (more ++ calls) record.
Proof. apply skipped_incl, incl_appr, incl_refl. Qed.

(** The first row contributed nothing. *)
Lemma follows_skip (first calls : list event) (record : RevolutRecord.t)
    (rest : list RevolutRecord.t) (rows : list nat) (new : list Activity.t) :
  skipped first record ->
  follows calls rest rows new ->
  follows (first ++ calls) (record :: rest) (map S rows) new.
Proof.
  intros Hskip [Hlen [Hsorted [Hrows Hrest]]].
  split; [now rewrite length_map |].
  split; [now apply sorted_map_S |]. split.
  - intros i k activity Hk Ha.
    rewrite nth_error_map in Hk.
    destruct (nth_error rows i) as [k'|] eqn:Ek; [| discriminate].
    injection Hk as <-.
    destruct (Hrows i k' activity Ek Ha) as [r [Hr Hc]].
    exists r. split; [exact Hr | now apply contributes_more].
  - intros [|k] r Hr Hnot; simpl in Hr.
    + injection Hr as <-.
      destruct Hskip as [H | [Hign [Hfee Hin]]]; [now left | right].
      repeat split; auto. apply in_or_app; now left.
    + apply skipped_more, (Hrest k r Hr).
      intros Hin. apply Hnot. now apply in_map.
Qed.

(** The first row contributed [activity]. *)
Lemma follows_contribute (first calls : list event) (record : RevolutRecord.t)
    (activity : Activity.t) (rest : list RevolutRecord.t) (rows : list nat)
    (new : list Activity.t) :
  contributes first record activity ->
  follows calls rest rows new ->
  follows (first ++ calls) (record :: rest) (0 :: map S rows) (activity :: new).
Proof.
  intros Hc [Hlen [Hsorted [Hrows Hrest]]].
  split; [simpl; now rewrite length_map, Hlen |].
  split.
  { constructor; [now apply sorted_map_S |].
    rewrite Forall_map, Forall_forall. intros; lia. }
  split.
  - intros [|i] k a Hk Ha; simpl in Hk, Ha.
    + injection Hk as <-. injection Ha as <-.
      exists record. split; [reflexivity |].
      destruct Hc as [Hign [H | [Hfee [security [Ha Hin]]]]]; split; auto.
      right. split; auto. exists security. split; auto.
      apply in_or_app; now left.
    + rewrite nth_error_map in Hk.
      destruct (nth_error rows i) as [k'|] eqn:Ek; [| discriminate].
      injection Hk as <-.
      destruct (Hrows i k' a Ek Ha) as [r [Hr Hcr]].
      exists r. split; [exact Hr | now apply contributes_more].
  - intros [|k] r Hr Hnot; simpl in Hr.
    + exfalso. apply Hnot. now left.
    + apply skipped_more, (Hrest k r Hr).
      intros Hin. apply Hnot. right. now apply in_map.
Qed.

Lemma processRecords_follows (records : list RevolutRecord.t) :
  forall (st st' : RunState) (idx : nat),
    processRecords st idx records = Next st' ->
    exists rows new calls,
      result_activities st' = result_activities st ++ new
      /\ trace st' = trace st ++ calls
      /\ follows calls records rows new.
Proof.
  induction records as [|record rest IH]; intros st st' idx H; simpl in H.
  - injection H as <-. exists [], [], []. rewrite !app_nil_r.
    split; [reflexivity | split; [reflexivity |]].
    split; [reflexivity | split; [constructor | split]].
    + intros i k a Hk. destruct i; discriminate.
    + intros k r Hr. destruct k; discriminate.
  - pose proof (processRecord_iteration st idx record) as Hit.
    destruct (processRecord st idx record) as [st1|st1] eqn:E; [| discriminate].
    apply IH in H as [rows [new [calls [Hacts [Htrace Hfollows]]]]].
    inversion Hit; subst; cbn [advance result_activities trace] in *.
    + exists (map S rows), new, ([BarIncrement] ++ calls).
      rewrite Hacts, Htrace, app_nil_r, <- app_assoc.
      split; [reflexivity | split; [reflexivity |]].
      apply follows_skip; [now left | exact Hfollows].
    + exists (0 :: map S rows), (feeActivity record :: new),
        ([BarIncrement] ++ calls).
      rewrite Hacts, Htrace, <- !app_assoc.
      split; [reflexivity | split; [reflexivity |]].
      apply follows_contribute; [| exact Hfollows].
      split; auto.
    + exists (map S rows), new,
        ([GetSecurity (lookupKey record) (RevolutRecord.currency record)
            (Resolved None);
          ProgressLog (noResultMessage record); BarIncrement] ++ calls).
      rewrite Hacts, Htrace, app_nil_r, <- app_assoc.
      split; [reflexivity |]. split; [reflexivity |].
      apply follows_skip; [| exact Hfollows].
      right. repeat split; auto. now left.
    + exists (0 :: map S rows), (securityActivity record security :: new),
        ([GetSecurity (lookupKey record) (RevolutRecord.currency record)
            (Resolved (Some security)); BarIncrement] ++ calls).
      rewrite Hacts, Htrace, <- !app_assoc.
      split; [reflexivity |]. split; [reflexivity |].
      apply follows_contribute; [| exact Hfollows].
      split; auto. right. split; auto. exists security. split; auto. now left.
Qed.

(** C9. The activities of the export of a successful run follow the input
    rows: there is a strictly increasing list of row indexes, one for each
    activity, such that the i-th activity is what the row at the i-th index
    contributes (its fee activity, or the activity of the security its
    lookup found), so that one activity precedes another exactly when its
    row precedes the other's; every other row is ignored or had a lookup
    that found nothing. *)
Theorem activities_follow_rows (service0 : ServiceState)
    (records : list RevolutRecord.t) (result : GhostfolioExport) :
  let calls := processRevolutFile service0 None (Some records) in
  In (SuccessCallback result) calls ->
  exists rows : list nat,
    List.length rows = List.length (activities result)
    /\ (forall i j ri rj,
          nth_error rows i = Some ri -> nth_error rows j = Some rj ->
          (i < j <-> ri < rj))
    /\ (forall i k activity,
          nth_error rows i = Some k ->
          nth_error (activities result) i = Some activity ->
          exists record,
            nth_error records k = Some record
            /\ contributes calls record activity)
    /\ (forall k record,
          nth_error records k = Some record -> ~ In k rows ->
          skipped calls record).
Proof.
  cbv zeta. unfold processRevolutFile.
  destruct records as [|r rs]; [intros [H | []]; discriminate |].
  match goal with
  | |- context [processRecords ?st 0 (r :: rs)] =>
      destruct (processRecords st 0 (r :: rs)) as [st'|st'] eqn:E
  end.
  - pose proof (processRecords_next _ _ _ _ E) as [calls' [T' [Q' _]]].
    apply processRecords_follows in E
      as [rows [new [calls [Hacts [Htrace [Hlen [Hsorted [Hrows Hskip]]]]]]]].
    cbn [trace result_activities] in *. rewrite app_nil_l in Hacts.
    intros Hin. apply in_app_or in Hin as [Hin | [H | [H | []]]];
      try discriminate.
    { rewrite T' in Hin. apply in_app_or in Hin as [[H | [H | []]] | Hin];
        try discriminate.
      unfold quiet in Q'. rewrite forallb_forall in Q'.
      specialize (Q' _ Hin). discriminate. }
    injection H as <-. cbn [activities]. rewrite Hacts.
    exists rows. split; [exact Hlen |]. split; [| split].
    + intros i j ri rj Hi Hj. split.
      * now apply (sorted_nth rows Hsorted i j).
      * intros Hlt. destruct (Nat.lt_trichotomy i j) as [H | [H | H]]; auto.
        -- subst j. rewrite Hi in Hj. injection Hj as <-. lia.
        -- pose proof (sorted_nth rows Hsorted j i rj ri Hj Hi H). lia.
    + intros i k activity Hk Ha.
      destruct (Hrows i k activity Hk Ha) as [record [Hr Hc]].
      exists record. split; [exact Hr |].
      revert Hc. apply contributes_incl.
      rewrite Htrace. apply incl_appl, incl_appr, incl_refl.
    + intros k record Hr Hnot.
      apply (skipped_incl calls); [| now apply (Hskip k)].
      rewrite Htrace. apply incl_appl, incl_appr, incl_refl.
  - apply processRecords_return in E
      as [calls [key [currency [ticker [err [T [Q _]]]]]]].
    rewrite T. cbn [trace]. intros Hin.
    apply in_app_or in Hin as [[H | [H | []]] | Hin]; try discriminate.
    apply in_app_or in Hin as [Hin | [H | [H | [H | []]]]]; try discriminate.
    unfold quiet in Q. rewrite forallb_forall in Q.
    specialize (Q _ Hin). discriminate.
Qed.

(** *** Rows that contribute nothing *)

Lemma isIgnoredRecord_contains (record : RevolutRecord.t) :
  isIgnoredRecord record = true
  <-> exists t, In t ignoredRecordTypes
                /\ containsIgnoringCase (RevolutRecord.type record) t.
Proof.
  unfold isIgnoredRecord, containsIgnoringCase. rewrite existsb_exists.
  split; intros [t [Hin H]]; exists t; split; auto; now apply indexOf_occurs.
Qed.

(** X4. The ignore rule on the record as the tokenizer delivers it: when the
    type text of the record contains one of the ignored words, compared
    without regard to case, the iteration adds no activity, makes no lookup
    and only advances the progress bar. *)
Theorem ignored_record_skipped (st : RunState) (idx : nat)
    (record : RevolutRecord.t) (t : jsstring) :
  In t ignoredRecordTypes ->
  containsIgnoringCase (RevolutRecord.type record) t ->
  processRecord st idx record =
    Next {| result_activities := result_activities st;
            service := service st;
            trace := trace st ++ [BarIncrement] |}.
Proof.
  intros Hin H.
  assert (Hign : isIgnoredRecord record = true)
    by (apply isIgnoredRecord_contains; exists t; split; assumption).
  unfold processRecord. rewrite Hign. reflexivity.
Qed.

(** X5. Unmatched security: when the lookup of a row that is neither ignored
    nor a fee finds nothing, the iteration adds no activity, logs the note
    and goes on to the next row. *)
Theorem unmatched_row_skipped (st : RunState) (idx : nat)
    (record : RevolutRecord.t) (rest : list RevolutRecord.t)
    (service' : ServiceState) :
  isIgnoredRecord record = false ->
  toLocaleLowerCase (RevolutRecord.type record) <> lit "fee" ->
  getSecurity (service st) (lookupKey record) (RevolutRecord.currency record)
    = (Resolved None, service') ->
  let st' :=
    {| result_activities := result_activities st;
       service := service';
       trace := trace st
                ++ [GetSecurity (lookupKey record)
                      (RevolutRecord.currency record) (Resolved None);
                    ProgressLog (noResultMessage record);
                    BarIncrement] |} in
  processRecord st idx record = Next st'
  /\ processRecords st idx (record :: rest) = processRecords st' (S idx) rest.
Proof.
  intros Hign Hfee Hget. cbv zeta. apply str_eqb_neq in Hfee.
  assert (E : processRecord st idx record =
              Next {| result_activities := result_activities st;
                      service := service';
                      trace := trace st
                               ++ [GetSecurity (lookupKey record)
                                     (RevolutRecord.currency record)
                                     (Resolved None);
                                   ProgressLog (noResultMessage record);
                                   BarIncrement] |}).
  { unfold processRecord. rewrite Hign, Hfee, Hget. reflexivity. }
  split; [exact E |]. simpl. rewrite E. reflexivity.
Qed.

(** *** The progress bar *)

Definition isProgressStop (e : event) : bool :=
  match e with ProgressStop => true | _ => false end.

(** The calls of an iteration that goes on to the next row. *)
Definition isRowCall (e : event) : bool :=
  match e with
  | BarIncrement | ProgressLog _ | GetSecurity _ _ (Resolved _) => true
  | _ => false
  end.

Definition stateOf (c : control) : RunState :=
  match c with Next st => st | Return st => st end.

Lemma rowCalls_quiet (calls : list event) :
  forallb isRowCall calls = true -> quiet calls = true.
Proof using Type.
  unfold quiet. induction calls as [|e calls IH]; simpl; [reflexivity |].
  rewrite !andb_true_iff. intros [He Hc]. split; [| now apply IH].
  destruct e as [| | |key currency [security|err]| | | | |]; try discriminate;
    reflexivity.
Qed.

Lemma rowCalls_count (p : event -> bool) (calls : list event) :
  (forall e, isRowCall e = true -> p e = false) ->
  forallb isRowCall calls = true -> count p calls = 0.
Proof using Type.
  intros Hp. unfold count.
  induction calls as [|e calls IH]; simpl; [reflexivity |].
  rewrite andb_true_iff. intros [He Hc]. rewrite (Hp e He). now apply IH.
Qed.

(** The calls of the loop: rows that go on make row calls, one increment
    of the bar each; a rejected lookup ends the loop with the log of the
    line of its row and the error callback. *)
Lemma processRecords_calls (records : list RevolutRecord.t) :
  forall (st : RunState) (idx : nat),
    match processRecords st idx records with
    | Next st' =>
        exists calls,
          trace st' = trace st ++ calls
          /\ forallb isRowCall calls = true
          /\ count isBarIncrement calls = List.length records
    | Return st' =>
        exists calls key currency ticker err,
          trace st' =
            trace st ++ calls
            ++ [GetSecurity key currency (Rejected err);
                LogQueryError ticker (idx + count isBarIncrement calls + 2);
                ErrorCallback err]
          /\ forallb isRowCall calls = true
          /\ count isBarIncrement calls < List.length records
    end.
Proof using Type.
  induction records as [|record rest IH]; intros st idx; simpl.
  - exists []. rewrite app_nil_r. repeat split.
  - pose proof (processRecord_iteration st idx record) as Hit.
    destruct (processRecord st idx record) as [st1|st1] eqn:E.
    + assert (H1 : exists c1, trace st1 = trace st ++ c1
                              /\ forallb isRowCall c1 = true
                              /\ count isBarIncrement c1 = 1).
      { inversion Hit; subst; simpl; eexists; repeat split. }
      destruct H1 as [c1 [T1 [R1 B1]]].
      specialize (IH st1 (S idx)).
      destruct (processRecords st1 (S idx) rest) as [st'|st'].
      * destruct IH as [c2 [T2 [R2 B2]]]. exists (c1 ++ c2).
        rewrite T2, T1, <- app_assoc, forallb_app, count_app, R1, R2, B1, B2.
        repeat split.
      * destruct IH as [c2 [key [currency [ticker [err [T2 [R2 B2]]]]]]].
        exists (c1 ++ c2), key, currency, ticker, err.
        rewrite T2, T1, forallb_app, count_app, R1, R2, B1, <- !app_assoc.
        replace (idx + (1 + count isBarIncrement c2) + 2)
          with (S idx + count isBarIncrement c2 + 2) by lia.
        repeat split. lia.
    + inversion Hit; subst.
      exists [], (lookupKey record), (RevolutRecord.currency record),
        (RevolutRecord.ticker record), err.
      unfold count; simpl. rewrite Nat.add_0_r. repeat split. lia.
Qed.

(** X11. The progress bar.  A run that calls the success callback has
    created the bar for the number of rows, advanced it once for every row,
    whatever became of the row, and stopped it once, just before the
    callback.  A run that does not call the success callback never stops
    the bar, has advanced it for fewer rows than it was given or not at
    all, and the line it logs for a rejected lookup is the number of rows
    completed before it plus 2: the line of the row in the file. *)
Theorem progress_accounting (service0 : ServiceState) (err : option Error)
    (records : option (list RevolutRecord.t)) :
  let calls := processRevolutFile service0 err records in
  let rows := match records with Some rows => rows | None => [] end in
  (count isSuccessCallback calls = 1 ->
   count isBarIncrement calls = List.length rows
   /\ count isProgressStop calls = 1
   /\ exists body result,
       calls = [ConsoleLog (lit "[i] Read CSV file. Start processing..");
                ProgressCreate (List.length rows)]
               ++ body ++ [ProgressStop; SuccessCallback result])
  /\ (count isSuccessCallback calls <> 1 ->
      count isProgressStop calls = 0
      /\ count isBarIncrement calls <= List.length rows
      /\ (rows <> [] -> count isBarIncrement calls < List.length rows)
      /\ forall ticker line,
           In (LogQueryError ticker line) calls ->
           line = count isBarIncrement calls + 2).
Proof using Type.
  cbv zeta. unfold processRevolutFile.
  assert (Hparse :
    forall rows : list RevolutRecord.t,
      (count isSuccessCallback [ErrorCallback (parsingError err)] = 1 ->
       count isBarIncrement [ErrorCallback (parsingError err)]
         = List.length rows
       /\ count isProgressStop [ErrorCallback (parsingError err)] = 1
       /\ exists body result,
           [ErrorCallback (parsingError err)] =
           [ConsoleLog (lit "[i] Read CSV file. Start processing..");
            ProgressCreate (List.length rows)]
           ++ body ++ [ProgressStop; SuccessCallback result])
      /\ (count isSuccessCallback [ErrorCallback (parsingError err)] <> 1 ->
          count isProgressStop [ErrorCallback (parsingError err)] = 0
          /\ count isBarIncrement [ErrorCallback (parsingError err)]
             <= List.length rows
          /\ (rows <> [] ->
              count isBarIncrement [ErrorCallback (parsingError err)]
              < List.length rows)
          /\ forall ticker line,
               In (LogQueryError ticker line)
                  [ErrorCallback (parsingError err)] ->
               line = count isBarIncrement [ErrorCallback (parsingError err)] + 2)).
  { intros rows. split; [discriminate |]. intros _. unfold count; simpl.
    split; [reflexivity |]. split; [lia |]. split.
    - destruct rows; [congruence | simpl; lia].
    - intros ticker line [H | []]. discriminate. }
  destruct err as [e|]; [destruct records; apply Hparse |].
  destruct records as [[|r rs]|]; try apply Hparse.
  match goal with
  | |- context [processRecords ?st 0 (r :: rs)] =>
      pose proof (processRecords_calls (r :: rs) st 0) as Hcalls;
      destruct (processRecords st 0 (r :: rs)) as [st'|st']
  end.
  - destruct Hcalls as [calls [T [R B]]]. cbn [trace] in T.
    rewrite T, <- app_assoc.
    set (first := [ConsoleLog (lit "[i] Read CSV file. Start processing..");
                   ProgressCreate (List.length (r :: rs))]).
    set (last := [ProgressStop;
                  SuccessCallback
                    {| meta := {| meta_date := now; version := lit "v0" |};
                       activities := result_activities st' |}]).
    assert (Hs : count isSuccessCallback (first ++ calls ++ last) = 1).
    { rewrite !count_app, (rowCalls_count isSuccessCallback calls); auto.
      intros []; try discriminate; reflexivity. }
    assert (Hp : count isProgressStop (first ++ calls ++ last) = 1).
    { rewrite !count_app, (rowCalls_count isProgressStop calls); auto.
      intros []; try discriminate; reflexivity. }
    assert (Hb : count isBarIncrement (first ++ calls ++ last)
                 = List.length (r :: rs)).
    { rewrite !count_app, B. unfold count; simpl. lia. }
    split.
    + intros _. split; [exact Hb |]. split; [exact Hp |].
      eexists calls, _. reflexivity.
    + intros H. contradiction.
  - destruct Hcalls as [calls [key [currency [ticker [e [T [R B]]]]]]].
    cbn [trace] in T. rewrite T.
    set (first := [ConsoleLog (lit "[i] Read CSV file. Start processing..");
                   ProgressCreate (List.length (r :: rs))]).
    set (last := [GetSecurity key currency (Rejected e);
                  LogQueryError ticker (0 + count isBarIncrement calls + 2);
                  ErrorCallback e]).
    assert (Hs : count isSuccessCallback (first ++ calls ++ last) = 0).
    { rewrite !count_app, (rowCalls_count isSuccessCallback calls); auto.
      intros []; try discriminate; reflexivity. }
    assert (Hp : count isProgressStop (first ++ calls ++ last) = 0).
    { rewrite !count_app, (rowCalls_count isProgressStop calls); auto.
      intros []; try discriminate; reflexivity. }
    assert (Hb : count isBarIncrement (first ++ calls ++ last)
                 = count isBarIncrement calls).
    { rewrite !count_app. unfold count at 1 3; simpl. lia. }
    split; [rewrite Hs; discriminate |].
    intros _. rewrite Hb. split; [exact Hp |].
    split; [lia |]. split; [intros _; exact B |].
    intros ticker' line Hin.
    apply in_app_or in Hin as [[H | [H | []]] | Hin]; try discriminate.
    apply in_app_or in Hin as [Hin | [H | [H | [H | []]]]]; try discriminate.
    + rewrite forallb_forall in R. specialize (R _ Hin). discriminate.
    + injection H as _ <-. lia.
Qed.

(** *** The lookups of a run *)

(** A row for which the loop calls the lookup service. *)
Definition needsLookup (record : RevolutRecord.t) : bool :=
  negb (isIgnoredRecord record) && negb (isFee record).

(** The key and the currency of every lookup among [calls], in order. *)
Definition lookupsOf (calls : list event) : list (jsstring * jsstring) :=
  flat_map (fun e => match e with
                     | GetSecurity key currency _ => [(key, currency)]
                     | _ => []
                     end) calls.

Definition lookupOf (record : RevolutRecord.t) : jsstring * jsstring :=
  (lookupKey record, RevolutRecord.currency record).

Lemma lookupsOf_app (a b : list event) :
  lookupsOf (a ++ b) = lookupsOf a ++ lookupsOf b.
Proof using Type. apply flat_map_app. Qed.

(** The lookups of one iteration: one for a row that needs it, none for an
    ignored row or a fee. *)
Lemma processRecord_lookups (st : RunState) (idx : nat)
    (record : RevolutRecord.t) :
  lookupsOf (trace (stateOf (processRecord st idx record)))
  = lookupsOf (trace st)
    ++ (if needsLookup record then [lookupOf record] else []).
Proof using Type.
  pose proof (processRecord_iteration st idx record) as Hit.
  unfold needsLookup.
  inversion Hit as [Hi | Hi Hf | s' Hi Hf Hg | sec s' Hi Hf Hg | e s' Hi Hf Hg];
    rewrite Hi; try rewrite Hf; cbn [stateOf advance trace];
    rewrite lookupsOf_app; reflexivity.
Qed.

Lemma processRecords_lookups (records : list RevolutRecord.t) :
  forall (st : RunState) (idx : nat),
    let expected := map lookupOf (filter needsLookup records) in
    match processRecords st idx records with
    | Next st' => lookupsOf (trace st') = lookupsOf (trace st) ++ expected
    | Return st' =>
        exists rest,
          lookupsOf (trace st) ++ expected = lookupsOf (trace st') ++ rest
    end.
Proof using Type.
  induction records as [|record rest IH]; intros st idx; cbv zeta; simpl.
  - now rewrite app_nil_r.
  - pose proof (processRecord_lookups st idx record) as H1.
    destruct (processRecord st idx record) as [st1|st1]; cbn [stateOf] in H1.
    + specialize (IH st1 (S idx)). cbv zeta in IH.
      destruct (processRecords st1 (S idx) rest) as [st'|st'].
      * rewrite IH, H1, <- app_assoc.
        destruct (needsLookup record); reflexivity.
      * destruct IH as [more IH]. exists more. rewrite <- IH, H1, <- app_assoc.
        destruct (needsLookup record); reflexivity.
    + exists (map lookupOf (filter needsLookup rest)).
      rewrite H1, <- app_assoc.
      destruct (needsLookup record); reflexivity.
Qed.

(** X12. The lookups of a run follow the rows: the service is called at
    most once for a row, never for an ignored row or a fee, in the order of
    the rows, with the ticker of the row, or its symbol and currency when it
    has no ticker, as key.  A run that calls the success callback has looked
    up every row that is neither ignored nor a fee; any other run has looked
    up the first of them only. *)
Theorem lookups_follow_rows (service0 : ServiceState)
    (records : list RevolutRecord.t) :
  let calls := processRevolutFile service0 None (Some records) in
  let expected := map lookupOf (filter needsLookup records) in
  (exists rest, expected = lookupsOf calls ++ rest)
  /\ (count isSuccessCallback calls = 1 -> lookupsOf calls = expected)
  /\ List.length (lookupsOf calls) <= List.length records.
Proof using Type.
  cbv zeta.
  assert (Hlen : forall (a rest : list (jsstring * jsstring)),
            map lookupOf (filter needsLookup records) = a ++ rest ->
            List.length a <= List.length records).
  { intros a rest H.
    apply (f_equal (@List.length _)) in H.
    rewrite length_map, length_app in H.
    pose proof (filter_length_le needsLookup records). lia. }
  unfold processRevolutFile.
  destruct records as [|r rs].
  { split; [exists []; reflexivity |]. split; [discriminate | simpl; lia]. }
  match goal with
  | |- context [processRecords ?st 0 (r :: rs)] =>
      pose proof (processRecords_lookups (r :: rs) st 0) as Hl;
      pose proof (processRecords_calls (r :: rs) st 0) as Hc;
      destruct (processRecords st 0 (r :: rs)) as [st'|st']
  end; cbv zeta in Hl; cbn [trace] in Hl.
  - assert (E : lookupsOf
                  (trace st'
                   ++ [ProgressStop;
                       SuccessCallback
                         {| meta := {| meta_date := now; version := lit "v0" |};
                            activities := result_activities st' |}])
                = map lookupOf (filter needsLookup (r :: rs))).
    { rewrite lookupsOf_app, Hl. simpl. now rewrite app_nil_r. }
    rewrite E. split; [exists []; now rewrite app_nil_r |].
    split; [reflexivity |]. apply (Hlen _ []). now rewrite app_nil_r.
  - destruct Hl as [rest Hl]. simpl in Hl.
    split; [exists rest; exact Hl |]. split; [| now apply (Hlen _ rest)].
    destruct Hc as [calls [key [currency [ticker [e [T [R _]]]]]]].
    rewrite T. cbn [trace]. rewrite !count_app.
    rewrite (rowCalls_count isSuccessCallback calls); auto.
    + discriminate.
    + intros []; try discriminate; reflexivity.
Qed.

(** *** The activities of the export *)

(** The two kinds of activity the loop adds: the manual activity of a fee,
    and the activity of a security the lookup found. *)
Definition wellFormed (activity : Activity.t) : Prop :=
  Activity.accountId activity = GHOSTFOLIO_ACCOUNT_ID
  /\ ((Activity.dataSource activity = lit "MANUAL"
       /\ Activity.quantity activity = Some (num 1)
       /\ Activity.unitPrice activity = Some (num 0)
       /\ Activity.comment activity = Activity.symbol activity)
      \/ (Activity.dataSource activity = lit "YAHOO"
          /\ Activity.fee activity = num 0
          /\ Activity.comment activity = [])).

Definition isFeeRow (record : RevolutRecord.t) : bool :=
  negb (isIgnoredRecord record) && isFee record.

Definition isMatchedLookup (e : event) : bool :=
  match e with GetSecurity _ _ (Resolved (Some _)) => true | _ => false end.

Lemma matched_le_lookups (calls : list event) :
  count isMatchedLookup calls <= List.length (lookupsOf calls).
Proof using Type.
  unfold count. induction calls as [|e calls IH]; simpl; [lia |].
  destruct e as [| | |key currency [[sec|]|err]| | | | |]; simpl; lia.
Qed.

Lemma processRecords_activities (records : list RevolutRecord.t) :
  forall (st st' : RunState) (idx : nat),
    processRecords st idx records = Next st' ->
    exists new calls,
      result_activities st' = result_activities st ++ new
      /\ trace st' = trace st ++ calls
      /\ Forall wellFormed new
      /\ List.length new
         = List.length (filter isFeeRow records) + count isMatchedLookup calls.
Proof using Type.
  induction records as [|record rest IH]; intros st st' idx H; simpl in H.
  - injection H as <-. exists [], []. rewrite !app_nil_r.
    split; [reflexivity |]. split; [reflexivity |]. split; [constructor |].
    reflexivity.
  - pose proof (processRecord_iteration st idx record) as Hit.
    destruct (processRecord st idx record) as [st1|st1] eqn:E; [| discriminate].
    apply IH in H as [new [calls [Hacts [Htrace [Hwf Hlen]]]]].
    assert (Hfilter :
      List.length (filter isFeeRow (record :: rest))
      = (if isFeeRow record then 1 else 0)
        + List.length (filter isFeeRow rest))
      by (simpl; destruct (isFeeRow record); reflexivity).
    rewrite Hfilter. unfold isFeeRow at 1.
    inversion Hit as [Hi | Hi Hf | s' Hi Hf Hg | sec s' Hi Hf Hg |];
      subst st1; cbn [advance result_activities trace] in Hacts, Htrace;
      rewrite Hi; try rewrite Hf; cbn [negb andb].
    + exists new, ([BarIncrement] ++ calls).
      rewrite Hacts, Htrace, app_nil_r, <- app_assoc, count_app.
      change (count isMatchedLookup [BarIncrement]) with 0.
      repeat split; assumption.
    + exists (feeActivity record :: new), ([BarIncrement] ++ calls).
      rewrite Hacts, Htrace, <- !app_assoc, count_app.
      change (count isMatchedLookup [BarIncrement]) with 0.
      split; [reflexivity |]. split; [reflexivity |]. split.
      * constructor; [| exact Hwf]. split; [reflexivity |]. left.
        repeat split.
      * cbn [List.length]. lia.
    + exists new,
        ([GetSecurity (lookupKey record) (RevolutRecord.currency record)
            (Resolved None);
          ProgressLog (noResultMessage record); BarIncrement] ++ calls).
      rewrite Hacts, Htrace, app_nil_r, <- app_assoc, count_app.
      change (count isMatchedLookup
                [GetSecurity (lookupKey record) (RevolutRecord.currency record)
                   (Resolved None);
                 ProgressLog (noResultMessage record); BarIncrement]) with 0.
      repeat split; assumption.
    + exists (securityActivity record sec :: new),
        ([GetSecurity (lookupKey record) (RevolutRecord.currency record)
            (Resolved (Some sec)); BarIncrement] ++ calls).
      rewrite Hacts, Htrace, <- !app_assoc, count_app.
      change (count isMatchedLookup
                [GetSecurity (lookupKey record) (RevolutRecord.currency record)
                   (Resolved (Some sec)); BarIncrement]) with 1.
      split; [reflexivity |]. split; [reflexivity |]. split.
      * constructor; [| exact Hwf]. split; [reflexivity |]. right.
        repeat split.
      * cbn [List.length]. lia.
Qed.

(** X13. The export a run delivers: its version is "v0" and its date the
    time the run began; every activity carries the account of the
    environment and is either a manual one (quantity 1, unit price 0, the
    comment equal to the symbol) or one of the lookup provider (fee 0, no
    comment); there are as many activities as there are fee rows and
    lookups that found a security, never more than there are rows. *)
Theorem export_invariants (service0 : ServiceState)
    (records : list RevolutRecord.t) (result : GhostfolioExport) :
  let calls := processRevolutFile service0 None (Some records) in
  In (SuccessCallback result) calls ->
  meta result = {| meta_date := now; version := lit "v0" |}
  /\ Forall wellFormed (activities result)
  /\ List.length (activities result)
     = List.length (filter isFeeRow records) + count isMatchedLookup calls
  /\ List.length (activities result) <= List.length records.
Proof using Type.
  cbv zeta. unfold processRevolutFile.
  destruct records as [|r rs]; [intros [H | []]; discriminate |].
  match goal with
  | |- context [processRecords ?st 0 (r :: rs)] =>
      pose proof (processRecords_calls (r :: rs) st 0) as Hc;
      pose proof (processRecords_lookups (r :: rs) st 0) as Hl;
      destruct (processRecords st 0 (r :: rs)) as [st'|st'] eqn:E
  end.
  - destruct Hc as [calls [T [R B]]]. cbn [trace] in T.
    apply processRecords_activities in E
      as [new [calls' [Hacts [Htrace [Hwf Hlen]]]]].
    cbn [trace result_activities] in Hacts, Htrace. rewrite app_nil_l in Hacts.
    intros Hin. apply in_app_or in Hin as [Hin | [H | [H | []]]];
      try discriminate.
    { rewrite T in Hin. apply in_app_or in Hin as [[H | [H | []]] | Hin];
        try discriminate.
      rewrite forallb_forall in R. specialize (R _ Hin). discriminate. }
    injection H as <-. cbn [meta activities]. rewrite Hacts.
    split; [reflexivity |]. split; [exact Hwf |].
    assert (Hcount : count isMatchedLookup
                       (trace st'
                        ++ [ProgressStop;
                            SuccessCallback
                              {| meta := {| meta_date := now;
                                            version := lit "v0" |};
                                 activities := new |}])
                     = count isMatchedLookup calls').
    { rewrite Htrace, !count_app. unfold count at 1 3; simpl. lia. }
    rewrite Hcount. split; [exact Hlen |].
    (* fee rows and matched lookups are distinct rows *)
    cbv zeta in Hl. cbn [trace] in Hl.
    pose proof (matched_le_lookups calls') as Hm.
    assert (Hlk : lookupsOf (trace st') = lookupsOf calls')
      by (rewrite Htrace, lookupsOf_app; reflexivity).
    rewrite <- Hlk in Hm.
    cbn [lookupsOf flat_map app] in Hl. fold lookupsOf in Hl.
    rewrite Hl, length_map in Hm.
    rewrite Hlen.
    assert (Hsplit : forall rows : list RevolutRecord.t,
              List.length (filter isFeeRow rows)
              + List.length (filter needsLookup rows) <= List.length rows).
    { clear. induction rows as [|x rows IH]; simpl; [lia |].
      unfold isFeeRow at 1, needsLookup at 1.
      destruct (isIgnoredRecord x), (isFee x); simpl; lia. }
    specialize (Hsplit (r :: rs)). lia.
  - destruct Hc as [calls [key [currency [ticker [e [T [R _]]]]]]].
    rewrite T. cbn [trace]. intros Hin.
    apply in_app_or in Hin as [[H | [H | []]] | Hin]; try discriminate.
    apply in_app_or in Hin as [Hin | [H | [H | [H | []]]]]; try discriminate.
    rewrite forallb_forall in R. specialize (R _ Hin). discriminate.
Qed.

(** *** Crypto rows in the loop *)

(** The parts of a crypto record that do not come from its amounts. *)
Lemma on_record_shape (row : CryptoRow.t) (record : RevolutRecord.t) :
  on_record row = Normal record ->
  In (RevolutRecord.type record) [lit "buy"; lit "sell"; lit "dividend"]
  /\ RevolutRecord.ticker record = None
  /\ RevolutRecord.symbol record = CryptoRow.symbol row
  /\ RevolutRecord.currency record = detectCurrency (CryptoRow.price row)
  /\ RevolutRecord.quantity record
     = Some (parseFloat (CryptoRow.quantity row))
  /\ RevolutRecord.pricePerShare record = None
  /\ RevolutRecord.totalAmount record = None.
Proof using Type.
  unfold on_record.
  destruct (amountOrZero (CryptoRow.price row) _) as [p|]; [| discriminate].
  destruct (amountOrZero (CryptoRow.value row) _) as [v|]; [| discriminate].
  destruct (amountOrZero (CryptoRow.fees row) _) as [f|]; [| discriminate].
  intros H; injection H as <-.
  cbn [RevolutRecord.type RevolutRecord.ticker RevolutRecord.symbol
       RevolutRecord.currency RevolutRecord.quantity
       RevolutRecord.pricePerShare RevolutRecord.totalAmount].
  split; [| repeat split].
  destruct (str_eqb (toLocaleLowerCase (CryptoRow.type row)) (lit "buy"));
    [left; reflexivity |].
  destruct (str_eqb (toLocaleLowerCase (CryptoRow.type row)) (lit "sell"));
    [right; left; reflexivity | right; right; left; reflexivity].
Qed.

Lemma kind_needs_lookup (record : RevolutRecord.t) :
  In (RevolutRecord.type record) [lit "buy"; lit "sell"; lit "dividend"] ->
  isIgnoredRecord record = false /\ isFee record = false.
Proof using Type.
  unfold isIgnoredRecord, isFee.
  intros [<- | [<- | [<- | []]]]; lower_literals; split; reflexivity.
Qed.

(** X15. No crypto row is ever ignored or taken for a fee: the record the
    transform makes of it has type buy, sell or dividend, so the loop looks
    it up, and since the record has no ticker the key of the lookup is the
    symbol of the row, a dash, and the currency detected from its price. *)
Theorem crypto_record_looked_up (st : RunState) (idx : nat)
    (row : CryptoRow.t) (record : RevolutRecord.t) :
  on_record row = Normal record ->
  isIgnoredRecord record = false
  /\ isFee record = false
  /\ lookupOf record
     = (CryptoRow.symbol row ++ lit "-" ++ detectCurrency (CryptoRow.price row),
        detectCurrency (CryptoRow.price row))
  /\ lookupsOf (trace (stateOf (processRecord st idx record)))
     = lookupsOf (trace st) ++ [lookupOf record].
Proof using Type.
  intros H.
  destruct (on_record_shape _ _ H) as [Hkind [Hticker [Hsymbol [Hcur _]]]].
  destruct (kind_needs_lookup _ Hkind) as [Hign Hfee].
  split; [exact Hign |]. split; [exact Hfee |]. split.
  - unfold lookupOf, lookupKey. now rewrite Hticker, Hsymbol, Hcur.
  - rewrite processRecord_lookups. unfold needsLookup.
    now rewrite Hign, Hfee.
Qed.

(** X16. The activity of a crypto row whose lookup finds a security: its
    quantity is the quantity field parsed, its currency the one detected
    from the price, its fee 0 whatever the fees field holds; its unit price
    is the price of the record for a buy or a sell, and 1 for any other
    type, since a crypto record has no total amount. *)
Theorem crypto_row_activity (st : RunState) (idx : nat) (row : CryptoRow.t)
    (record : RevolutRecord.t) (security : YahooFinanceRecord.t)
    (service' : ServiceState) :
  on_record row = Normal record ->
  getSecurity (service st)
    (CryptoRow.symbol row ++ lit "-" ++ detectCurrency (CryptoRow.price row))
    (detectCurrency (CryptoRow.price row))
    = (Resolved (Some security), service') ->
  exists activity,
    processRecord st idx record =
      Next {| result_activities := result_activities st ++ [activity];
              service := service';
              trace := trace st
                       ++ [GetSecurity
                             (CryptoRow.symbol row ++ lit "-"
                              ++ detectCurrency (CryptoRow.price row))
                             (detectCurrency (CryptoRow.price row))
                             (Resolved (Some security));
                           BarIncrement] |}
    /\ Activity.quantity activity
       = Some (parseFloat (CryptoRow.quantity row))
    /\ Activity.currency activity = detectCurrency (CryptoRow.price row)
    /\ Activity.fee activity = num 0
    /\ Activity.symbol activity = YahooFinanceRecord.symbol security
    /\ (RevolutRecord.type record = lit "dividend" ->
        Activity.unitPrice activity = Some (num 1))
    /\ (RevolutRecord.type record <> lit "dividend" ->
        Activity.unitPrice activity = RevolutRecord.price record).
Proof using Type.
  intros H Hget.
  destruct (on_record_shape _ _ H)
    as [Hkind [Hticker [Hsymbol [Hcur [Hq [Hpps Htotal]]]]]].
  destruct (kind_needs_lookup _ Hkind) as [Hign Hfee].
  exists (securityActivity record security).
  unfold processRecord. rewrite Hign. fold (isFee record). rewrite Hfee.
  unfold lookupKey. rewrite Hticker, Hsymbol, Hcur. cbn [nullish].
  rewrite Hget. split; [reflexivity |].
  unfold securityActivity.
  cbn [Activity.quantity Activity.unitPrice Activity.currency Activity.fee
       Activity.symbol Activity.dataSource].
  rewrite Hq, Hpps, Htotal, Hcur. cbn [nullish].
  refine (conj _ (conj eq_refl (conj eq_refl (conj eq_refl (conj _ _))))).
  - destruct (str_eqb (RevolutRecord.type record) (lit "dividend"));
      reflexivity.
  - intros ->. reflexivity.
  - intros Hne. apply str_eqb_neq in Hne. rewrite Hne. reflexivity.
Qed.

(** *** Invest rows in the loop *)

(** What [cast] makes of a numeric cell. *)
Definition numeric (columnValue : jsstring) : number :=
  if str_eqb columnValue [] then num 0
  else parseFloat (trim (replace_dollars columnValue)).

(** Modelled from the spec: the record the tokenizer makes of an invest
    row.  Each property of the record is what [cast] returns for the cell
    of its column; the record has none of the columns of the crypto
    layout. *)
Definition investRecordOf (row : InvestRow.t) (record : RevolutRecord.t)
    : Prop :=
  cast (InvestRow.date row) (lit "date")
    = CString (RevolutRecord.date record)
  /\ cast (InvestRow.type row) (lit "type")
     = CString (RevolutRecord.type record)
  /\ (exists ticker,
        cast (InvestRow.ticker row) (lit "ticker") = CString ticker
        /\ RevolutRecord.ticker record = Some ticker)
  /\ cast (InvestRow.symbol row) (lit "symbol")
     = CString (RevolutRecord.symbol record)
  /\ (exists n,
        cast (InvestRow.quantity row) (lit "quantity") = CNumber n
        /\ RevolutRecord.quantity record = Some n)
  /\ (exists n,
        cast (InvestRow.pricePerShare row) (lit "pricePerShare") = CNumber n
        /\ RevolutRecord.pricePerShare record = Some n)
  /\ (exists n,
        cast (InvestRow.totalAmount row) (lit "totalAmount") = CNumber n
        /\ RevolutRecord.totalAmount record = Some n)
  /\ cast (InvestRow.currency row) (lit "currency")
     = CString (RevolutRecord.currency record)
  /\ RevolutRecord.price record = None
  /\ RevolutRecord.value record = None
  /\ RevolutRecord.fees record = None.

(** The fields of the record of an invest row. *)
Lemma invest_record_fields_aux (row : InvestRow.t) (record : RevolutRecord.t) :
  investRecordOf row record ->
  RevolutRecord.date record = InvestRow.date row
  /\ RevolutRecord.ticker record = Some (InvestRow.ticker row)
  /\ RevolutRecord.symbol record = InvestRow.symbol row
  /\ RevolutRecord.quantity record = Some (numeric (InvestRow.quantity row))
  /\ RevolutRecord.pricePerShare record
     = Some (numeric (InvestRow.pricePerShare row))
  /\ RevolutRecord.totalAmount record
     = Some (numeric (InvestRow.totalAmount row))
  /\ RevolutRecord.currency record
     = (if str_eqb (InvestRow.currency row) (lit "GBX") then lit "GBp"
        else InvestRow.currency row)
  /\ lookupKey record = InvestRow.ticker row.
Proof using Type.
  intros [Hdate [_ [[ticker [Hticker Hrt]] [Hsymbol [[q [Hq Hrq]]
            [[p [Hp Hrp]] [[t [Ht Hrt']] [Hcur _]]]]]]]].
  change (cast (InvestRow.date row) (lit "date"))
    with (CString (InvestRow.date row)) in Hdate.
  change (cast (InvestRow.ticker row) (lit "ticker"))
    with (CString (InvestRow.ticker row)) in Hticker.
  change (cast (InvestRow.symbol row) (lit "symbol"))
    with (CString (InvestRow.symbol row)) in Hsymbol.
  change (cast (InvestRow.quantity row) (lit "quantity"))
    with (if str_eqb (InvestRow.quantity row) [] then CNumber (num 0)
          else CNumber (parseFloat (trim (replace_dollars (InvestRow.quantity row)))))
    in Hq.
  change (cast (InvestRow.pricePerShare row) (lit "pricePerShare"))
    with (if str_eqb (InvestRow.pricePerShare row) [] then CNumber (num 0)
          else CNumber (parseFloat (trim (replace_dollars (InvestRow.pricePerShare row)))))
    in Hp.
  change (cast (InvestRow.totalAmount row) (lit "totalAmount"))
    with (if str_eqb (InvestRow.totalAmount row) [] then CNumber (num 0)
          else CNumber (parseFloat (trim (replace_dollars (InvestRow.totalAmount row)))))
    in Ht.
  change (cast (InvestRow.currency row) (lit "currency"))
    with (if str_eqb (InvestRow.currency row) (lit "GBX")
          then CString (lit "GBp") else CString (InvestRow.currency row))
    in Hcur.
  injection Hdate as Hdate. injection Hticker as Hticker.
  injection Hsymbol as Hsymbol.
  unfold numeric, lookupKey. rewrite Hrt, Hrq, Hrp, Hrt'. cbn [nullish].
  subst ticker.
  destruct (str_eqb (InvestRow.quantity row) []);
  destruct (str_eqb (InvestRow.pricePerShare row) []);
  destruct (str_eqb (InvestRow.totalAmount row) []);
  destruct (str_eqb (InvestRow.currency row) (lit "GBX"));
  injection Hq as <-; injection Hp as <-; injection Ht as <-;
  injection Hcur as <-; repeat split; auto.
Qed.

(** X17. The record of an invest row: date, ticker and symbol are the text
    of their cells; quantity, price per share and total amount are always
    numbers, 0 for an empty cell, so that the defaults the loop has for a
    missing quantity, total amount or price per share never apply to an
    invest row; the key of its lookup is its ticker, even when empty; its
    currency is the cell, with "GBX" turned into "GBp". *)
Theorem invest_record_fields (row : InvestRow.t) (record : RevolutRecord.t) :
  investRecordOf row record ->
  RevolutRecord.date record = InvestRow.date row
  /\ RevolutRecord.ticker record = Some (InvestRow.ticker row)
  /\ RevolutRecord.symbol record = InvestRow.symbol row
  /\ RevolutRecord.quantity record = Some (numeric (InvestRow.quantity row))
  /\ RevolutRecord.pricePerShare record
     = Some (numeric (InvestRow.pricePerShare row))
  /\ RevolutRecord.totalAmount record
     = Some (numeric (InvestRow.totalAmount row))
  /\ RevolutRecord.currency record
     = (if str_eqb (InvestRow.currency row) (lit "GBX") then lit "GBp"
        else InvestRow.currency row)
  /\ lookupKey record = InvestRow.ticker row.
Proof using Type. apply invest_record_fields_aux. Qed.

(** The words of the action mapping. *)
Definition ruleWords : list jsstring :=
  [lit "buy"; lit "stock split"; lit "sell"; lit "dividend"; lit "fee"].

(** X18. The ignore rule on invest rows.  The record of an invest row is
    ignored exactly when the label of the row contains an ignored word and
    none of the words of the action mapping: a label that the mapping has
    turned into buy, sell, dividend or fee is no longer ignored, whatever
    else it contains. *)
Theorem invest_ignore_rule (row : InvestRow.t) (record : RevolutRecord.t) :
  investRecordOf row record ->
  isIgnoredRecord record = true
  <-> ((exists t, In t ignoredRecordTypes
                  /\ containsIgnoringCase (InvestRow.type row) t)
       /\ forall w, In w ruleWords ->
                    ~ containsIgnoringCase (InvestRow.type row) w).
Proof using Type.
  intros [_ [Htype _]]. rewrite cast_type in Htype. cbv zeta in Htype.
  unfold containsIgnoringCase.
  set (action := toLocaleLowerCase (InvestRow.type row)) in *.
  assert (Hkind :
    forall kind w,
      In kind [lit "buy"; lit "sell"; lit "dividend"; lit "fee"] ->
      In w ruleWords -> occursIn w action ->
      CString kind = CString (RevolutRecord.type record) ->
      isIgnoredRecord record = true
      <-> ((exists t, In t ignoredRecordTypes /\ occursIn t action)
           /\ forall w, In w ruleWords -> ~ occursIn w action)).
  { intros kind w Hk Hw Hocc E. injection E as E.
    assert (Hfalse : isIgnoredRecord record = false).
    { unfold isIgnoredRecord. rewrite <- E.
      destruct Hk as [<- | [<- | [<- | [<- | []]]]]; lower_literals;
        reflexivity. }
    rewrite Hfalse. split; [discriminate |].
    intros [_ Hnone]. exfalso. exact (Hnone w Hw Hocc). }
  destruct (indexOf action (lit "buy") >? -1)%Z eqn:Ebuy.
  { apply indexOf_occurs in Ebuy.
    apply (Hkind (lit "buy") (lit "buy")); simpl; auto. }
  destruct (indexOf action (lit "stock split") >? -1)%Z eqn:Esplit.
  { apply indexOf_occurs in Esplit.
    apply (Hkind (lit "buy") (lit "stock split")); simpl; auto. }
  simpl orb in Htype. cbv iota in Htype.
  destruct (indexOf action (lit "sell") >? -1)%Z eqn:Esell.
  { apply indexOf_occurs in Esell.
    apply (Hkind (lit "sell") (lit "sell")); simpl; auto. }
  destruct (indexOf action (lit "dividend") >? -1)%Z eqn:Ediv.
  { apply indexOf_occurs in Ediv.
    apply (Hkind (lit "dividend") (lit "dividend")); simpl; auto 6. }
  destruct (indexOf action (lit "fee") >? -1)%Z eqn:Efee.
  { apply indexOf_occurs in Efee.
    apply (Hkind (lit "fee") (lit "fee")); simpl; auto 6. }
  injection Htype as Htype.
  rewrite isIgnoredRecord_contains. unfold containsIgnoringCase.
  rewrite <- Htype. fold action.
  apply indexOf_absent in Ebuy, Esplit, Esell, Ediv, Efee.
  split.
  - intros H. split; [exact H |].
    intros w [<- | [<- | [<- | [<- | [<- | []]]]]]; assumption.
  - intros [H _]. exact H.
Qed.

(** X19. The activity of an invest row that the mapping has made a buy, a
    sell or a dividend and whose lookup, by its ticker, finds a security:
    the quantity is the quantity cell as a number, 0 and not 1 when the cell
    is empty, also for a dividend; the unit price of a dividend is the
    absolute value of the total amount cell, that of a buy or a sell the
    price-per-share cell; the currency is the currency cell, "GBX" turned
    into "GBp". *)
Theorem invest_row_activity (st : RunState) (idx : nat) (row : InvestRow.t)
    (record : RevolutRecord.t) (security : YahooFinanceRecord.t)
    (service' : ServiceState) :
  investRecordOf row record ->
  In (RevolutRecord.type record) [lit "buy"; lit "sell"; lit "dividend"] ->
  getSecurity (service st) (InvestRow.ticker row)
    (RevolutRecord.currency record)
    = (Resolved (Some security), service') ->
  exists activity,
    processRecord st idx record =
      Next {| result_activities := result_activities st ++ [activity];
              service := service';
              trace := trace st
                       ++ [GetSecurity (InvestRow.ticker row)
                             (RevolutRecord.currency record)
                             (Resolved (Some security));
                           BarIncrement] |}
    /\ Activity.quantity activity = Some (numeric (InvestRow.quantity row))
    /\ (RevolutRecord.type record = lit "dividend" ->
        Activity.unitPrice activity
        = Some (Math_abs (numeric (InvestRow.totalAmount row))))
    /\ (RevolutRecord.type record <> lit "dividend" ->
        Activity.unitPrice activity
        = Some (numeric (InvestRow.pricePerShare row)))
    /\ Activity.currency activity
       = (if str_eqb (InvestRow.currency row) (lit "GBX") then lit "GBp"
          else InvestRow.currency row)
    /\ Activity.dataSource activity = lit "YAHOO".
Proof using Type.
  intros Hrecord Hkind Hget.
  destruct (invest_record_fields_aux _ _ Hrecord)
    as [_ [Hticker [_ [Hq [Hp [Ht [Hcur Hkey]]]]]]].
  destruct (kind_needs_lookup _ Hkind) as [Hign Hfee].
  exists (securityActivity record security).
  unfold processRecord. rewrite Hign. fold (isFee record).
  rewrite Hfee, Hkey, Hget. split; [reflexivity |].
  unfold securityActivity.
  cbn [Activity.quantity Activity.unitPrice Activity.currency Activity.fee
       Activity.symbol Activity.dataSource].
  rewrite Hq, Hp, Ht, Hcur. cbn [nullish].
  refine (conj _ (conj _ (conj _ (conj eq_refl eq_refl)))).
  - destruct (str_eqb (RevolutRecord.type record) (lit "dividend"));
      reflexivity.
  - intros ->. reflexivity.
  - intros Hne. apply str_eqb_neq in Hne. rewrite Hne. reflexivity.
Qed.

End RevolutConverter.

Arguments Next {ServiceState} st.
Arguments Return {ServiceState} st.

(** ** Runs on concrete rows *)

Module Examples.

(** A lookup service that knows two securities, rejects the key "FAIL",
    finds nothing for any other key, and counts the lookups made. *)
Definition lookup (lookups : nat) (key currency : jsstring)
    : LookupOutcome * nat :=
  (if str_eqb key (lit "AAPL")
   then Resolved (Some {| YahooFinanceRecord.symbol := lit "AAPL" |})
   else if str_eqb key (lit "BTC-USD")
   then Resolved (Some {| YahooFinanceRecord.symbol := lit "BTC-USD" |})
   else if str_eqb key (lit "FAIL")
   then Rejected {| message := lit "service unavailable" |}
   else Resolved None,
   S lookups).

Definition account : option jsstring := Some (lit "account-1").
Definition clock : jsstring := lit "2024-03-02T09:00:00.000Z".
Definition format (date : jsstring) : jsstring := date ++ lit "+00:00".

Definition investRow (type ticker : string) (total : Z) : RevolutRecord.t :=
  {| RevolutRecord.date := lit "2024-03-01T10:00:00";
     RevolutRecord.type := lit type;
     RevolutRecord.ticker := Some (lit ticker);
     RevolutRecord.symbol := [];
     RevolutRecord.quantity := Some (num 2);
     RevolutRecord.pricePerShare := Some (num 150);
     RevolutRecord.totalAmount := Some (num total);
     RevolutRecord.currency := lit "USD";
     RevolutRecord.price := None;
     RevolutRecord.value := None;
     RevolutRecord.fees := None |}.

Definition start : RunState nat :=
  {| result_activities := []; service := 0; trace := [] |}.

(** A crypto row of type "SEND". *)
Definition sendRow : CryptoRow.t :=
  {| CryptoRow.date := lit "2024-03-01 10:00:00";
     CryptoRow.type := lit "SEND";
     CryptoRow.symbol := lit "BTC";
     CryptoRow.quantity := lit "0.5";
     CryptoRow.price := lit "$30,000.00";
     CryptoRow.value := lit "$15,000.00";
     CryptoRow.fees := lit "$0.00" |}.

End Examples.

(** C3, at a crypto row of type "SEND": the type text contains "send", but
    [on_record] has rewritten it to "dividend" before [isIgnoredRecord]
    reads it, so the row is not skipped: a lookup is made for it and an
    activity of type dividend is exported. *)
Theorem crypto_send_row_exported (L : Locale) :
  occursIn (lit "send") (toLocaleLowerCase (CryptoRow.type Examples.sendRow))
  /\ processCryptoFileContents Examples.account Examples.clock Examples.format
       nat Examples.lookup 0 (Normal [Examples.sendRow])
     = [ConsoleLog (lit "[i] Read CSV file. Start processing..");
        ProgressCreate 1;
        GetSecurity (lit "BTC-USD") (lit "USD")
          (Resolved (Some {| YahooFinanceRecord.symbol := lit "BTC-USD" |}));
        BarIncrement;
        ProgressStop;
        SuccessCallback
          {| meta := {| meta_date := Examples.clock; version := lit "v0" |};
             activities :=
               [{| Activity.accountId := Examples.account;
                   Activity.comment := [];
                   Activity.fee := num 0;
                   Activity.quantity := Some (Finite (1 # 2));
                   Activity.type := Some dividend;
                   Activity.unitPrice := Some (num 1);
                   Activity.currency := lit "USD";
                   Activity.dataSource := lit "YAHOO";
                   Activity.date := Examples.format (lit "2024-03-01 10:00:00");
                   Activity.symbol := lit "BTC-USD" |}] |}].
Proof.
  split.
  - lower_literals. exists [], []. reflexivity.
  - assert (Hrecord :
      on_record Examples.sendRow =
      Normal {| RevolutRecord.date := lit "2024-03-01 10:00:00";
                RevolutRecord.type := lit "dividend";
                RevolutRecord.ticker := None;
                RevolutRecord.symbol := lit "BTC";
                RevolutRecord.quantity := Some (Finite (1 # 2));
                RevolutRecord.pricePerShare := None;
                RevolutRecord.totalAmount := None;
                RevolutRecord.currency := lit "USD";
                RevolutRecord.price := Some (num 30000);
                RevolutRecord.value := Some (num 15000);
                RevolutRecord.fees := Some (num 0) |}).
    { unfold on_record, detectCurrency. lower_literals. upper_literals.
      reflexivity. }
    unfold processCryptoFileContents, on_records. rewrite Hrecord.
    unfold processRevolutFile, processRecords, processRecord, isIgnoredRecord.
    lower_literals. reflexivity.
Qed.

(** ** The theorems at concrete rows *)

Module Witnesses.
Import Examples.

Definition feeRecord : RevolutRecord.t := investRow "fee" "" (-3).
Definition buyRecord : RevolutRecord.t := investRow "buy" "AAPL" (-300).
Definition withdrawalRecord : RevolutRecord.t :=
  investRow "CASH WITHDRAWAL" "" (-50).
Definition unknownRecord : RevolutRecord.t := investRow "sell" "NOPE" 10.
Definition failingRecord : RevolutRecord.t := investRow "buy" "FAIL" (-10).

Definition run (records : list RevolutRecord.t) : list event :=
  processRevolutFile (L := BasicLatinLocale) account clock format nat lookup
    0 None (Some records).

Definition fourRows : list RevolutRecord.t :=
  [withdrawalRecord; feeRecord; unknownRecord; buyRecord].

(** The export a run delivers, if it delivers one. *)
Definition exported (calls : list event) : list Activity.t :=
  flat_map (fun e => match e with
                     | SuccessCallback result => activities result
                     | _ => []
                     end) calls.

Definition fourRowsExport : GhostfolioExport :=
  {| meta := {| meta_date := clock; version := lit "v0" |};
     activities := exported (run fourRows) |}.

End Witnesses.

Example run_four_rows :
  map Activity.symbol (Witnesses.exported (Witnesses.run Witnesses.fourRows))
  = [lit "Revolut fee"; lit "AAPL"].
Proof. reflexivity. Qed.

(** A rejected lookup on the third of four rows: the two rows before it
    have advanced the progress bar, line 4 is logged, the error callback
    ends the run and the fourth row is not looked up. *)
Example run_rejected_lookup :
  Witnesses.run [Witnesses.feeRecord; Witnesses.withdrawalRecord;
                 Witnesses.failingRecord; Witnesses.buyRecord]
  = [ConsoleLog (lit "[i] Read CSV file. Start processing..");
     ProgressCreate 4;
     BarIncrement;
     BarIncrement;
     GetSecurity (lit "FAIL") (lit "USD")
       (Rejected {| message := lit "service unavailable" |});
     LogQueryError (Some (lit "FAIL")) 4;
     ErrorCallback {| message := lit "service unavailable" |}].
Proof. reflexivity. Qed.

Example run_no_rows :
  processRevolutFile (L := BasicLatinLocale) Examples.account Examples.clock
    Examples.format nat Examples.lookup 0
    (Some {| message := lit "Invalid Record Length" |}) None
  = [ErrorCallback
       {| message :=
            lit "An error ocurred while parsing! Details: Invalid Record Length" |}].
Proof. reflexivity. Qed.

Lemma fee_row_activity_witness :
  RevolutRecord.type Witnesses.feeRecord = lit "fee"
  /\ exists activity,
       processRecord (L := BasicLatinLocale) Examples.account Examples.format
         nat Examples.lookup Examples.start 0 Witnesses.feeRecord
       = Next {| result_activities := [activity];
                 service := 0;
                 trace := [BarIncrement] |}
       /\ Activity.quantity activity = Some (num 1)
       /\ Activity.unitPrice activity = Some (num 0)
       /\ Activity.fee activity = num 3
       /\ Activity.dataSource activity = lit "MANUAL".
Proof.
  split; [reflexivity |].
  destruct (fee_row_activity (L := BasicLatinLocale) Examples.account
              Examples.format nat Examples.lookup Examples.start 0
              Witnesses.feeRecord eq_refl)
    as [_ [activity [Hrun [Hq [Hu [Hfee [_ [Hsource _]]]]]]]].
  exists activity. repeat split; assumption.
Defined.

Lemma activities_follow_rows_witness :
  In (SuccessCallback Witnesses.fourRowsExport)
     (Witnesses.run Witnesses.fourRows)
  /\ exists rows : list nat,
       List.length rows = 2
       /\ (forall i j ri rj,
             nth_error rows i = Some ri -> nth_error rows j = Some rj ->
             (i < j <-> ri < rj)).
Proof.
  assert (Hin : In (SuccessCallback Witnesses.fourRowsExport)
                   (Witnesses.run Witnesses.fourRows)).
  { vm_compute. do 10 right. left. reflexivity. }
  split; [exact Hin |].
  destruct (activities_follow_rows (L := BasicLatinLocale) Examples.account
              Examples.clock Examples.format nat Examples.lookup 0
              Witnesses.fourRows Witnesses.fourRowsExport Hin)
    as [rows [Hlen [Horder _]]].
  exists rows. split; [exact Hlen | exact Horder].
Defined.

Lemma fatal_conditions_terminal_witness :
  let calls :=
    Witnesses.run [Witnesses.feeRecord; Witnesses.failingRecord;
                   Witnesses.buyRecord] in
  In (GetSecurity (lit "FAIL") (lit "USD")
        (Rejected {| message := lit "service unavailable" |})) calls
  /\ count isErrorCallback calls = 1
  /\ count isSuccessCallback calls = 0.
Proof.
  cbv zeta.
  assert (Hin : In (GetSecurity (lit "FAIL") (lit "USD")
                      (Rejected {| message := lit "service unavailable" |}))
                   (Witnesses.run [Witnesses.feeRecord; Witnesses.failingRecord;
                                   Witnesses.buyRecord])).
  { vm_compute. do 3 right. left. reflexivity. }
  split; [exact Hin |].
  destruct (fatal_conditions_terminal (L := BasicLatinLocale) Examples.account
              Examples.clock Examples.format nat Examples.lookup 0 None
              (Some [Witnesses.feeRecord; Witnesses.failingRecord;
                     Witnesses.buyRecord]))
    as [Hfatal _].
  destruct Hfatal as [Herr [Hsucc _]].
  - right; right; right.
    exists (GetSecurity (lit "FAIL") (lit "USD")
              (Rejected {| message := lit "service unavailable" |})).
    split; [exact Hin | reflexivity].
  - split; [exact Herr | exact Hsucc].
Defined.

Lemma invest_action_mapping_witness :
  containsIgnoringCase (L := BasicLatinLocale) (lit "BUY - MARKET") (lit "buy")
  /\ cast (L := BasicLatinLocale) (lit "BUY - MARKET") (lit "type")
     = CString (lit "buy").
Proof.
  assert (H : containsIgnoringCase (L := BasicLatinLocale)
                (lit "BUY - MARKET") (lit "buy"))
    by (exists [], (lit " - market"); reflexivity).
  split; [exact H |].
  exact (proj1 (invest_action_mapping (L := BasicLatinLocale)
                  (lit "BUY - MARKET")) (or_introl H)).
Defined.

Lemma currency_detection_witness :
  toLocaleUpperCase
    (trim (filter (fun c => negb (isNumericChar c)) (lit " $1,000.50 ")))
  = lit "$"
  /\ detectCurrency (L := BasicLatinLocale) (lit " $1,000.50 ") = lit "USD".
Proof.
  split; [reflexivity |].
  exact (proj1 (proj2 (currency_detection (L := BasicLatinLocale)
                         (lit " $1,000.50 "))) eq_refl).
Defined.

Lemma crypto_transform_total_witness :
  emptyOrNumeric (CryptoRow.value groupedRow)
  /\ emptyOrNumeric (CryptoRow.fees groupedRow)
  /\ exists record,
       on_record (L := BasicLatinLocale) groupedRow = Normal record.
Proof.
  assert (Hv : emptyOrNumeric (CryptoRow.value groupedRow))
    by (right; exists 50%N; split; [right; left; reflexivity | reflexivity]).
  assert (Hf : emptyOrNumeric (CryptoRow.fees groupedRow))
    by (right; exists 48%N; split; [right; left; reflexivity | reflexivity]).
  split; [exact Hv |]. split; [exact Hf |].
  exact (proj1 (crypto_transform_total (L := BasicLatinLocale) groupedRow)
           Hv Hf).
Defined.

Lemma ignored_record_skipped_witness :
  In (lit "withdrawal") ignoredRecordTypes
  /\ containsIgnoringCase (L := BasicLatinLocale)
       (RevolutRecord.type Witnesses.withdrawalRecord) (lit "withdrawal")
  /\ processRecord (L := BasicLatinLocale) Examples.account Examples.format
       nat Examples.lookup Examples.start 0 Witnesses.withdrawalRecord
     = Next {| result_activities := [];
               service := 0;
               trace := [BarIncrement] |}.
Proof.
  assert (Hin : In (lit "withdrawal") ignoredRecordTypes)
    by (right; left; reflexivity).
  assert (H : containsIgnoringCase (L := BasicLatinLocale)
                (RevolutRecord.type Witnesses.withdrawalRecord)
                (lit "withdrawal"))
    by (exists (lit "cash "), []; reflexivity).
  split; [exact Hin |]. split; [exact H |].
  exact (ignored_record_skipped (L := BasicLatinLocale) Examples.account
           Examples.format nat Examples.lookup Examples.start 0
           Witnesses.withdrawalRecord (lit "withdrawal") Hin H).
Defined.

Lemma unmatched_row_skipped_witness :
  isIgnoredRecord (L := BasicLatinLocale) Witnesses.unknownRecord = false
  /\ Examples.lookup 0 (lit "NOPE") (lit "USD") = (Resolved None, 1)
  /\ exists st',
       processRecord (L := BasicLatinLocale) Examples.account Examples.format
         nat Examples.lookup Examples.start 0 Witnesses.unknownRecord
       = Next st'
       /\ result_activities nat st' = [] /\ service nat st' = 1.
Proof.
  assert (Hfee : toLocaleLowerCase
                   (RevolutRecord.type Witnesses.unknownRecord) <> lit "fee")
    by (intros H; vm_compute in H; discriminate H).
  split; [reflexivity |]. split; [reflexivity |].
  destruct (unmatched_row_skipped (L := BasicLatinLocale) Examples.account
              Examples.format nat Examples.lookup Examples.start 0
              Witnesses.unknownRecord [] 1 eq_refl Hfee eq_refl)
    as [Hrun _].
  eexists. split; [exact Hrun |]. split; reflexivity.
Defined.

Lemma on_record_fields_witness :
  exists record,
    on_record (L := BasicLatinLocale) Examples.sendRow = Normal record
    /\ RevolutRecord.type record = lit "dividend"
    /\ RevolutRecord.currency record = lit "USD"
    /\ RevolutRecord.quantity record = Some (Finite (1 # 2)).
Proof.
  eexists. split; [reflexivity |].
  destruct (on_record_fields (L := BasicLatinLocale) Examples.sendRow _
              eq_refl)
    as [Htype [Hcurrency [Hquantity _]]].
  split; [exact Htype |]. split; [exact Hcurrency | exact Hquantity].
Defined.

Example schema_detection_crypto :
  processFileContents (lit "Symbol,Type,Quantity,Price,Value,Fees,Date")
  = Crypto.
Proof. reflexivity. Qed.

Example schema_detection_invest :
  processFileContents
    (lit "Date,Ticker,Type,Quantity,Price per share,Total Amount,Currency,FX Rate")
  = Invest.
Proof. reflexivity. Qed.

(** ** Further rows *)

Module MoreRows.
Import Examples.

(** A crypto row whose price carries a minus sign. *)
Definition refundRow : CryptoRow.t :=
  {| CryptoRow.date := lit "2024-03-01 10:00:00";
     CryptoRow.type := lit "SELL";
     CryptoRow.symbol := lit "BTC";
     CryptoRow.quantity := lit "-0.5";
     CryptoRow.price := lit "-$5.00";
     CryptoRow.value := [];
     CryptoRow.fees := lit "$0.10" |}.

(** A dividend of the invest layout with no quantity, quoted in pence. *)
Definition dividendRow : InvestRow.t :=
  {| InvestRow.date := lit "2024-03-01T10:00:00";
     InvestRow.type := lit "DIVIDEND";
     InvestRow.ticker := lit "AAPL";
     InvestRow.symbol := [];
     InvestRow.quantity := [];
     InvestRow.pricePerShare := [];
     InvestRow.totalAmount := lit "-$1.25";
     InvestRow.currency := lit "GBX" |}.

Definition dividendRecord : RevolutRecord.t :=
  {| RevolutRecord.date := lit "2024-03-01T10:00:00";
     RevolutRecord.type := lit "dividend";
     RevolutRecord.ticker := Some (lit "AAPL");
     RevolutRecord.symbol := [];
     RevolutRecord.quantity := Some (num 0);
     RevolutRecord.pricePerShare := Some (num 0);
     RevolutRecord.totalAmount := Some (Finite (-5 # 4));
     RevolutRecord.currency := lit "GBp";
     RevolutRecord.price := None;
     RevolutRecord.value := None;
     RevolutRecord.fees := None |}.

(** A cash top-up of the invest layout. *)
Definition topUpRow : InvestRow.t :=
  {| InvestRow.date := lit "2024-03-01T10:00:00";
     InvestRow.type := lit "CASH TOP-UP";
     InvestRow.ticker := [];
     InvestRow.symbol := [];
     InvestRow.quantity := [];
     InvestRow.pricePerShare := [];
     InvestRow.totalAmount := lit "$100";
     InvestRow.currency := lit "USD" |}.

Definition topUpRecord : RevolutRecord.t :=
  {| RevolutRecord.date := lit "2024-03-01T10:00:00";
     RevolutRecord.type := lit "CASH TOP-UP";
     RevolutRecord.ticker := Some [];
     RevolutRecord.symbol := [];
     RevolutRecord.quantity := Some (num 0);
     RevolutRecord.pricePerShare := Some (num 0);
     RevolutRecord.totalAmount := Some (num 100);
     RevolutRecord.currency := lit "USD";
     RevolutRecord.price := None;
     RevolutRecord.value := None;
     RevolutRecord.fees := None |}.

Lemma dividendRecord_of_row :
  investRecordOf (L := BasicLatinLocale) dividendRow dividendRecord.
Proof.
  unfold investRecordOf.
  repeat (split; [first [reflexivity | eexists; split; reflexivity] |]).
  reflexivity.
Defined.

Lemma topUpRecord_of_row :
  investRecordOf (L := BasicLatinLocale) topUpRow topUpRecord.
Proof.
  unfold investRecordOf.
  repeat (split; [first [reflexivity | eexists; split; reflexivity] |]).
  reflexivity.
Defined.

End MoreRows.

Lemma cast_blank_amount_witness :
  isNumericColumn (lit "totalAmount") = true
  /\ lit " $ " <> []
  /\ cast (L := BasicLatinLocale) (lit " $ ") (lit "totalAmount")
     = CNumber NaN.
Proof.
  split; [reflexivity |]. split; [discriminate |].
  apply cast_blank_amount; [reflexivity | discriminate | reflexivity].
Defined.

Lemma crypto_amounts_unsigned_witness :
  exists record,
    on_record (L := BasicLatinLocale) MoreRows.refundRow = Normal record
    /\ RevolutRecord.price record = Some (num 5)
    /\ (RevolutRecord.price record = Some NaN
        \/ RevolutRecord.price record = Some (Infinity false)
        \/ exists q, RevolutRecord.price record = Some (Finite q)
                     /\ (0 <= q)%Q).
Proof.
  eexists. split; [reflexivity |]. split; [reflexivity |].
  exact (proj1 (crypto_amounts_unsigned (L := BasicLatinLocale)
                  MoreRows.refundRow _ eq_refl)).
Defined.

(** A token of four hundred digits is too large for a finite Number. *)
Example parseFloat_overflow :
  parseFloat (repeat 57%N 400) = Infinity false
  /\ parseFloat (lit "-1e309") = Infinity true
  /\ parseFloat (lit "1.7976931348623157e308")
     = Finite (inject_Z (17976931348623157 * 10 ^ 292)).
Proof. repeat split; vm_compute; reflexivity. Qed.

Lemma export_invariants_witness :
  In (SuccessCallback Witnesses.fourRowsExport)
     (Witnesses.run Witnesses.fourRows)
  /\ List.length (activities Witnesses.fourRowsExport) <= 4
  /\ Forall (wellFormed Examples.account) (activities Witnesses.fourRowsExport).
Proof.
  assert (Hin : In (SuccessCallback Witnesses.fourRowsExport)
                   (Witnesses.run Witnesses.fourRows)).
  { vm_compute. do 10 right. left. reflexivity. }
  split; [exact Hin |].
  destruct (export_invariants (L := BasicLatinLocale) Examples.account
              Examples.clock Examples.format nat Examples.lookup 0
              Witnesses.fourRows Witnesses.fourRowsExport Hin)
    as [_ [Hwf [_ Hlen]]].
  split; [exact Hlen | exact Hwf].
Defined.

Lemma crypto_record_looked_up_witness :
  exists record,
    on_record (L := BasicLatinLocale) Examples.sendRow = Normal record
    /\ isIgnoredRecord record = false
    /\ lookupOf record = (lit "BTC-USD", lit "USD").
Proof.
  eexists. split; [reflexivity |].
  destruct (crypto_record_looked_up (L := BasicLatinLocale) Examples.account
              Examples.format nat Examples.lookup Examples.start 0
              Examples.sendRow _ eq_refl)
    as [Hign [_ [Hkey _]]].
  split; [exact Hign | exact Hkey].
Defined.

Lemma crypto_row_activity_witness :
  exists record activity,
    on_record (L := BasicLatinLocale) Examples.sendRow = Normal record
    /\ Examples.lookup 0 (lit "BTC-USD") (lit "USD")
       = (Resolved (Some {| YahooFinanceRecord.symbol := lit "BTC-USD" |}), 1)
    /\ processRecord (L := BasicLatinLocale) Examples.account Examples.format
         nat Examples.lookup Examples.start 0 record
       = Next {| result_activities := [activity];
                 service := 1;
                 trace := [GetSecurity (lit "BTC-USD") (lit "USD")
                             (Resolved
                                (Some {| YahooFinanceRecord.symbol :=
                                           lit "BTC-USD" |}));
                           BarIncrement] |}
    /\ Activity.unitPrice activity = Some (num 1)
    /\ Activity.fee activity = num 0.
Proof.
  destruct (crypto_row_activity (L := BasicLatinLocale) Examples.account
              Examples.format nat Examples.lookup Examples.start 0
              Examples.sendRow _
              {| YahooFinanceRecord.symbol := lit "BTC-USD" |} 1
              eq_refl eq_refl)
    as [activity [Hrun [_ [_ [Hfee [_ [Hdiv _]]]]]]].
  eexists. exists activity.
  split; [reflexivity |]. split; [reflexivity |].
  split; [exact Hrun |]. split; [exact (Hdiv eq_refl) | exact Hfee].
Defined.

Lemma invest_record_fields_witness :
  investRecordOf (L := BasicLatinLocale) MoreRows.dividendRow
    MoreRows.dividendRecord
  /\ RevolutRecord.quantity MoreRows.dividendRecord = Some (num 0)
  /\ RevolutRecord.currency MoreRows.dividendRecord = lit "GBp"
  /\ lookupKey MoreRows.dividendRecord = lit "AAPL".
Proof.
  split; [exact MoreRows.dividendRecord_of_row |].
  destruct (invest_record_fields (L := BasicLatinLocale) MoreRows.dividendRow
              MoreRows.dividendRecord MoreRows.dividendRecord_of_row)
    as [_ [_ [_ [Hq [_ [_ [Hcur Hkey]]]]]]].
  split; [exact Hq |]. split; [exact Hcur | exact Hkey].
Defined.

Lemma invest_ignore_rule_witness :
  investRecordOf (L := BasicLatinLocale) MoreRows.topUpRow
    MoreRows.topUpRecord
  /\ isIgnoredRecord (L := BasicLatinLocale) MoreRows.topUpRecord = true.
Proof.
  split; [exact MoreRows.topUpRecord_of_row |].
  apply (proj2 (invest_ignore_rule (L := BasicLatinLocale) MoreRows.topUpRow
                  MoreRows.topUpRecord MoreRows.topUpRecord_of_row)).
  split.
  - exists (lit "top-up"). split; [do 2 right; left; reflexivity |].
    exists (lit "cash "), []. reflexivity.
  - intros w [<- | [<- | [<- | [<- | [<- | []]]]]];
      apply indexOf_absent; reflexivity.
Defined.

Lemma invest_row_activity_witness :
  investRecordOf (L := BasicLatinLocale) MoreRows.dividendRow
    MoreRows.dividendRecord
  /\ Examples.lookup 0 (lit "AAPL") (lit "GBp")
     = (Resolved (Some {| YahooFinanceRecord.symbol := lit "AAPL" |}), 1)
  /\ exists activity,
       processRecord (L := BasicLatinLocale) Examples.account Examples.format
         nat Examples.lookup Examples.start 0 MoreRows.dividendRecord
       = Next {| result_activities := [activity];
                 service := 1;
                 trace := [GetSecurity (lit "AAPL") (lit "GBp")
                             (Resolved
                                (Some {| YahooFinanceRecord.symbol :=
                                           lit "AAPL" |}));
                           BarIncrement] |}
       /\ Activity.quantity activity = Some (num 0)
       /\ Activity.unitPrice activity = Some (Finite (5 # 4))
       /\ Activity.currency activity = lit "GBp".
Proof.
  split; [exact MoreRows.dividendRecord_of_row |]. split; [reflexivity |].
  destruct (invest_row_activity (L := BasicLatinLocale) Examples.account
              Examples.format nat Examples.lookup Examples.start 0
              MoreRows.dividendRow MoreRows.dividendRecord
              {| YahooFinanceRecord.symbol := lit "AAPL" |} 1
              MoreRows.dividendRecord_of_row
              (or_intror (or_intror (or_introl eq_refl)))
              eq_refl)
    as [activity [Hrun [Hq [Hdiv [_ [Hcur _]]]]]].
  exists activity. split; [exact Hrun |]. split; [exact Hq |].
  split; [exact (Hdiv eq_refl) | exact Hcur].
Defined.

(** A reward paid in a crypto currency, as a record with neither quantity
    nor total amount. *)
Definition rewardRecord : RevolutRecord.t :=
  {| RevolutRecord.date := lit "2024-03-01 10:00:00";
     RevolutRecord.type := lit "dividend";
     RevolutRecord.ticker := None;
     RevolutRecord.symbol := lit "BTC";
     RevolutRecord.quantity := None;
     RevolutRecord.pricePerShare := None;
     RevolutRecord.totalAmount := None;
     RevolutRecord.currency := lit "USD";
     RevolutRecord.price := Some (num 30000);
     RevolutRecord.value := None;
     RevolutRecord.fees := None |}.

Lemma resolved_row_activity_witness :
  (* a dividend with a negative total amount *)
  (isIgnoredRecord (L := BasicLatinLocale) MoreRows.dividendRecord = false
   /\ toLocaleLowerCase (RevolutRecord.type MoreRows.dividendRecord)
      <> lit "fee"
   /\ Examples.lookup 0 (lit "AAPL") (lit "GBp")
      = (Resolved (Some {| YahooFinanceRecord.symbol := lit "AAPL" |}), 1)
   /\ exists activity,
        processRecord (L := BasicLatinLocale) Examples.account Examples.format
          nat Examples.lookup Examples.start 0 MoreRows.dividendRecord
        = Next {| result_activities := [activity];
                  service := 1;
                  trace := [GetSecurity (lit "AAPL") (lit "GBp")
                              (Resolved
                                 (Some {| YahooFinanceRecord.symbol :=
                                            lit "AAPL" |}));
                            BarIncrement] |}
        /\ Activity.quantity activity = Some (num 0)
        /\ Activity.unitPrice activity = Some (Finite (5 # 4)))
  (* a dividend with neither quantity nor total amount *)
  /\ (exists activity,
        processRecord (L := BasicLatinLocale) Examples.account Examples.format
          nat Examples.lookup Examples.start 0 rewardRecord
        = Next {| result_activities := [activity];
                  service := 1;
                  trace := [GetSecurity (lit "BTC-USD") (lit "USD")
                              (Resolved
                                 (Some {| YahooFinanceRecord.symbol :=
                                            lit "BTC-USD" |}));
                            BarIncrement] |}
        /\ Activity.quantity activity = Some (num 1)
        /\ Activity.unitPrice activity = Some (num 1))
  (* a buy *)
  /\ (exists activity,
        processRecord (L := BasicLatinLocale) Examples.account Examples.format
          nat Examples.lookup Examples.start 0 Witnesses.buyRecord
        = Next {| result_activities := [activity];
                  service := 1;
                  trace := [GetSecurity (lit "AAPL") (lit "USD")
                              (Resolved
                                 (Some {| YahooFinanceRecord.symbol :=
                                            lit "AAPL" |}));
                            BarIncrement] |}
        /\ Activity.quantity activity = Some (num 2)
        /\ Activity.unitPrice activity = Some (num 150)).
Proof.
  assert (Hdividend :
            toLocaleLowerCase (RevolutRecord.type MoreRows.dividendRecord)
            <> lit "fee")
    by (intros H; vm_compute in H; discriminate H).
  assert (Hreward : toLocaleLowerCase (RevolutRecord.type rewardRecord)
                    <> lit "fee")
    by (intros H; vm_compute in H; discriminate H).
  assert (Hbuy : toLocaleLowerCase (RevolutRecord.type Witnesses.buyRecord)
                 <> lit "fee")
    by (intros H; vm_compute in H; discriminate H).
  refine (conj (conj eq_refl (conj Hdividend (conj eq_refl _))) (conj _ _)).
  - destruct (resolved_row_activity (L := BasicLatinLocale) Examples.account
                Examples.format nat Examples.lookup Examples.start 0
                MoreRows.dividendRecord
                {| YahooFinanceRecord.symbol := lit "AAPL" |} 1
                eq_refl Hdividend eq_refl)
      as [activity [Hrun [_ [_ [Hdiv _]]]]].
    destruct (Hdiv eq_refl) as [Hq [_ [Hu _]]].
    exists activity. split; [exact Hrun |].
    split; [exact (Hq _ eq_refl) | exact (Hu _ eq_refl)].
  - destruct (resolved_row_activity (L := BasicLatinLocale) Examples.account
                Examples.format nat Examples.lookup Examples.start 0
                rewardRecord
                {| YahooFinanceRecord.symbol := lit "BTC-USD" |} 1
                eq_refl Hreward eq_refl)
      as [activity [Hrun [_ [_ [Hdiv _]]]]].
    destruct (Hdiv eq_refl) as [_ [Hq [_ [_ [_ Hu]]]]].
    exists activity. split; [exact Hrun |].
    split; [exact (Hq eq_refl) | exact (Hu eq_refl)].
  - destruct (resolved_row_activity (L := BasicLatinLocale) Examples.account
                Examples.format nat Examples.lookup Examples.start 0
                Witnesses.buyRecord
                {| YahooFinanceRecord.symbol := lit "AAPL" |} 1
                eq_refl Hbuy eq_refl)
      as [activity [Hrun [_ [Hold [_ Hnew]]]]].
    destruct (Hold (or_introl eq_refl)) as [Hq _].
    destruct (Hnew (or_introl eq_refl)) as [Hu _].
    exists activity. split; [exact Hrun |].
    split; [exact Hq | exact (Hu _ eq_refl)].
Defined.
